(** * pgebus: the producer helper, the event router, the configuration
      record and the system facade, embedded from the Python sources.

    Python objects that are mutated in place and may be reached through
    several references (routers, ORM rows) live in a store indexed by
    locations; calls into collaborators that are not part of the modelled
    sources are recorded in a trace and answered by an environment. *)

From stdpp Require Import gmap strings list fin_maps.
From Stdlib Require Import ZArith QArith DecimalString.

#[local] Close Scope Q_scope.
#[local] Open Scope string_scope.
#[local] Open Scope list_scope.

(** ** Python built-ins used by the sources *)

Module Py.

(** Truth value of a [str]: the empty string is false. *)
Definition truthy (s : string) : bool :=
  match s with
  | EmptyString => false
  | String _ _ => true
  end.

(** [sep.join(parts)]. *)
Fixpoint join (sep : string) (parts : list string) : string :=
  match parts with
  | [] => ""
  | [p] => p
  | p :: ps => p +:+ sep +:+ join sep ps
  end.

(** Outcome of running a loop whose iteration space can grow while it
    runs: the model runs it on a budget of steps. *)
Inductive run (A : Type) : Type :=
  | Done (a : A)
  | OutOfFuel
  | NoSuchObject.
Arguments Done {A} a.
Arguments OutOfFuel {A}.
Arguments NoSuchObject {A}.

(** [str(n)] on an [int]: decimal digits, with a minus sign when
    negative. *)
Definition str_int (n : Z) : string :=
  NilZero.string_of_int (Z.to_int n).

(** A callable object: what calling it computes, and its truth value. A
    function, a lambda or a builtin is always true; an instance of a class
    with [__call__] is as true as its [__bool__] or [__len__] makes it. *)
Record callable (A B : Type) : Type := mkCallable {
  call : A -> B;
  truth : bool
}.
Arguments mkCallable {A B} call truth.
Arguments call {A B} c.
Arguments truth {A B} c.

(** A function defined with [def], or a builtin. *)
Definition function {A B} (f : A -> B) : callable A B :=
  mkCallable f true.

(** [x or d], for [x] an optional callable: [None] and a callable that is
    false both give [d]. *)
Definition or_else {A B} (x : option (callable A B)) (d : callable A B)
    : callable A B :=
  match x with
  | Some c => if truth c then c else d
  | None => d
  end.

End Py.


(** ** pg_event_bus/routing.py *)

Module Routing.

Section Defs.

(** The session handed to endpoints, the event payload, exceptions and the
    values endpoints return are opaque to the router. *)
Context {AsyncSession Payload Exn Any : Type}.

(** [base.DBEvent]: a dict built with exactly the keys "type" and
    "payload". *)
Record DBEvent : Type := mkDBEvent {
  type : string;
  payload : Payload
}.

(** [Endpoint = Callable[[AsyncSession, DBEvent], Awaitable[Any]]]: awaiting
    it changes the session and either returns a value or raises. *)
Definition Endpoint : Type :=
  AsyncSession -> DBEvent -> AsyncSession * (Exn + Any).

(** The two attributes set by [EventRouter.__init__]. *)
Record EventRouter : Type := mkEventRouter {
  prefix : string;
  event_handlers : list (string * Endpoint)
}.

(** [EventRouter.__init__(prefix="")]. *)
Definition __init__ (prefix : string) : EventRouter :=
  {| prefix := prefix; event_handlers := [] |}.

(** [self.event_handlers.append((path, endpoint))]. *)
Definition add_event_route (path : string) (endpoint : Endpoint)
    (self : EventRouter) : EventRouter :=
  {| prefix := prefix self;
     event_handlers := event_handlers self ++ [(path, endpoint)] |}.

(** [on(path)] returns a decorator; applying it registers the endpoint and
    hands the endpoint back. *)
Definition on (path : string) (self : EventRouter)
    : Endpoint -> EventRouter * Endpoint :=
  fun endpoint => (add_event_route path endpoint self, endpoint).

(** What one [handle] call did: the session after it, the endpoints it
    awaited (in order), and its result or the exception that left it. *)
Record handled : Type := mkHandled {
  session_after : AsyncSession;
  invoked : list Endpoint;
  result : Exn + bool
}.

(** The [for path, endpoint in self.event_handlers] loop of [handle]. *)
Fixpoint handle_loop (handlers : list (string * Endpoint))
    (session : AsyncSession) (event : DBEvent) : handled :=
  match handlers with
  | [] => mkHandled session [] (inr false)
  | (path, endpoint) :: rest =>
      if String.eqb path (type event) then
        let (session', r) := endpoint session event in
        match r with
        | inl exn => mkHandled session' [endpoint] (inl exn)
        | inr _ => mkHandled session' [endpoint] (inr true)
        end
      else handle_loop rest session event
  end.

(** [EventRouter.handle(session, event)]. *)
Definition handle (self : EventRouter) (session : AsyncSession)
    (event : DBEvent) : handled :=
  handle_loop (event_handlers self) session event.

(** *** Routers as shared objects *)

(** [include_router] reads one router while appending to another; both are
    references, possibly to the same object. *)
Definition loc : Type := nat.

(** The [parts] list built in the body of the loop of [include_router]. *)
Definition parts_of (prefix rprefix path : string) : list string :=
  let parts := [] in
  let parts := if Py.truthy prefix then parts ++ [prefix] else parts in
  let parts := if Py.truthy rprefix then parts ++ [rprefix] else parts in
  let parts := if Py.truthy path then parts ++ [path] else parts in
  parts.

(** [self.add_event_route(path, endpoint)] on the object at [self]. *)
Definition add_event_route_at (self : loc) (path : string)
    (endpoint : Endpoint) (h : gmap loc EventRouter)
    : option (gmap loc EventRouter) :=
  match h !! self with
  | Some r => Some (<[self := add_event_route path endpoint r]> h)
  | None => None
  end.

(** The loop of [include_router]: a Python list iterator keeps an index
    [i] and, at every step, compares it with the current length of the
    list it walks. *)
Fixpoint include_router_loop (fuel : nat) (self router : loc)
    (prefix : string) (i : nat) (h : gmap loc EventRouter)
    : Py.run (gmap loc EventRouter) :=
  match fuel with
  | O => Py.OutOfFuel
  | S fuel' =>
      match h !! router with
      | None => Py.NoSuchObject
      | Some {| prefix := router_prefix; event_handlers := handlers |} =>
          match handlers !! i with
          | None => Py.Done h
          | Some (path, endpoint) =>
              let new_path :=
                Py.join "." (parts_of prefix router_prefix path) in
              match add_event_route_at self new_path endpoint h with
              | None => Py.NoSuchObject
              | Some h' =>
                  include_router_loop fuel' self router prefix (S i) h'
              end
          end
      end
  end.

(** [self.include_router(router, prefix="")]. *)
Definition include_router (fuel : nat) (self router : loc)
    (prefix : string) (h : gmap loc EventRouter)
    : Py.run (gmap loc EventRouter) :=
  include_router_loop fuel self router prefix 0 h.

(** *** The routing rule in the words of the specification *)

(** The dot-joined concatenation of the non-empty strings among the extra
    prefix, the child's prefix and the route's path. *)
Definition dotted (extra rprefix path : string) : string :=
  Py.join "." (filter (fun s => s <> "") [extra; rprefix; path]).

(** The route at position [i] is bound to [endpoint], its path equals
    [ty], and no route registered before it has that path. *)
Definition earliest (handlers : list (string * Endpoint)) (ty : string)
    (i : nat) (endpoint : Endpoint) : Prop :=
  handlers !! i = Some (ty, endpoint) /\
  forall j path e, j < i -> handlers !! j = Some (path, e) -> path <> ty.

(** Some registered route's path equals the given type. *)
Definition routed (handlers : list (string * Endpoint)) (ty : string)
    : Prop :=
  exists endpoint, (ty, endpoint) ∈ handlers.

(** The routes a mounted router contributes to the router it is mounted
    into. *)
Definition mounted (extra : string) (child : EventRouter)
    : list (string * Endpoint) :=
  map (fun route => (dotted extra (prefix child) (fst route), snd route))
      (event_handlers child).

(** The endpoint of the earliest-registered route whose path equals the
    given type, computed. *)
Fixpoint first_route (handlers : list (string * Endpoint)) (ty : string)
    : option Endpoint :=
  match handlers with
  | [] => None
  | (path, endpoint) :: rest =>
      if String.eqb path ty then Some endpoint else first_route rest ty
  end.

End Defs.

Arguments DBEvent : clear implicits.
Arguments Endpoint : clear implicits.
Arguments EventRouter : clear implicits.
Arguments handled : clear implicits.

(** The dot-joined concatenation of the non-empty strings of a list. *)
Definition dotted_list (parts : list string) : string :=
  Py.join "." (filter (fun s => s <> "") parts).

End Routing.

(** ** pg_event_bus/base.py *)

Module Base.

Section Defs.

(** Identifiers, payloads, sources and timestamps are carried, never
    inspected. [str] is Python's [str] on an identifier; [nextval n] is
    the identifier the database gives to the [n]-th row it inserts. *)
Context {Id Payload EventSource datetime : Type}.
Context (str : Id -> string) (nextval : nat -> Id).

(** Modelled from the spec: [models.Event], the mapped row class, is not
    among the sources. Of the columns of the data model, these are the
    ones [publish_event] sets or reads; [id] is unset until the row has
    been flushed. *)
Record Event : Type := mkEvent {
  id : option Id;
  type : string;
  payload : Payload;
  source : EventSource;
  run_at : option datetime
}.

(** Rows are Python objects: the caller, the session and [publish_event]
    hold references to them. *)
Definition loc : Type := nat.

(** A textual statement with its bound parameters, as given to
    [session.execute(text(...), {...})]. *)
Record Statement : Type := mkStatement {
  sql : string;
  params : list (string * string)
}.

(** What was asked of the session, in order. *)
Inductive Call : Type :=
  | Add (event : loc)
  | Flush
  | Execute (stmt : Statement).

(** What [session.execute] raises when the server refuses a statement. *)
Inductive Exn : Type :=
  | ProgrammingError (stmt : Statement).

(** The engine the repository configures is [postgresql+asyncpg]: the
    bound parameters of a textual statement reach the server as the
    placeholders of a prepared statement. PostgreSQL takes placeholders
    only in statements it plans; [NOTIFY] is a utility command whose
    payload has to be a literal, so a [NOTIFY] that comes with a bound
    parameter is refused with a syntax error. *)
Definition refused (stmt : Statement) : bool :=
  String.prefix "NOTIFY " (sql stmt) &&
  match params stmt with
  | [] => false
  | _ :: _ => true
  end.

(** The session handed to [publish_event], with the objects it can reach:
    [pending] are the added objects not yet flushed, [inserted] the rows
    the open transaction has inserted, [executed] the textual statements
    it has run, [sequence] the number of identifiers handed out so far. *)
Record AsyncSession : Type := mkSession {
  objects : gmap loc Event;
  pending : list loc;
  inserted : list loc;
  executed : list Statement;
  sequence : nat;
  calls : list Call
}.

(** [str(event.id)]. *)
Definition str_id (i : option Id) : string :=
  match i with
  | Some i => str i
  | None => "None"
  end.

(** [Event(type=..., payload=..., source=..., run_at=...)]: a new object,
    at a location nothing refers to yet. *)
Definition Event_new (ty : string) (payload : Payload)
    (source : EventSource) (run_at : option datetime)
    (session : AsyncSession) : AsyncSession * loc :=
  let event := fresh (dom (objects session)) in
  (mkSession
     (<[event := mkEvent None ty payload source run_at]> (objects session))
     (pending session) (inserted session) (executed session)
     (sequence session) (calls session),
   event).

(** [session.add(event)]. *)
Definition add (event : loc) (session : AsyncSession) : AsyncSession :=
  mkSession (objects session) (pending session ++ [event])
    (inserted session) (executed session) (sequence session)
    (calls session ++ [Add event]).

(** Inserting the pending objects, oldest first: each row without an
    identifier receives the next one. *)
Fixpoint flush_objects (todo : list loc) (objs : gmap loc Event)
    (seq : nat) : gmap loc Event * nat :=
  match todo with
  | [] => (objs, seq)
  | l :: rest =>
      match objs !! l with
      | Some (mkEvent None ty payload source run_at) =>
          flush_objects rest
            (<[l := mkEvent (Some (nextval seq)) ty payload source run_at]>
               objs)
            (S seq)
      | _ => flush_objects rest objs seq
      end
  end.

(** [await session.flush()]. *)
Definition flush (session : AsyncSession) : AsyncSession :=
  let (objs, seq) :=
    flush_objects (pending session) (objects session) (sequence session) in
  mkSession objs [] (inserted session ++ pending session)
    (executed session) seq (calls session ++ [Flush]).

(** [await session.execute(text(sql), params)]: the statement is sent to
    the server, which runs it or refuses it; a refusal is raised. *)
Definition execute (stmt : Statement) (session : AsyncSession)
    : AsyncSession * (Exn + unit) :=
  if refused stmt then
    (mkSession (objects session) (pending session) (inserted session)
       (executed session) (sequence session)
       (calls session ++ [Execute stmt]),
     inl (ProgrammingError stmt))
  else
    (mkSession (objects session) (pending session) (inserted session)
       (executed session ++ [stmt]) (sequence session)
       (calls session ++ [Execute stmt]),
     inr tt).

(** [event.id], read through the reference. *)
Definition id_of (event : loc) (session : AsyncSession) : option Id :=
  match objects session !! event with
  | Some e => id e
  | None => None
  end.

(** [publish_event(session, event_type, payload, source, channel,
    run_at=None)]: it returns the reference to the row, or the exception
    of [session.execute] leaves it. *)
Definition publish_event (session : AsyncSession) (event_type : string)
    (payload : Payload) (source : EventSource) (channel : string)
    (run_at : option datetime) : AsyncSession * (Exn + loc) :=
  let (session, event) :=
    Event_new event_type payload source run_at session in
  let session := add event session in
  let session := flush session in
  match
    execute
      {| sql := "NOTIFY " +:+ channel +:+ ", :event_id";
         params := [("event_id", str_id (id_of event session))] |}
      session
  with
  | (session, inl exn) => (session, inl exn)
  | (session, inr _) => (session, inr event)
  end.

(** References held by a session point to objects. *)
Definition no_dangling (session : AsyncSession) : Prop :=
  Forall (fun l => is_Some (objects session !! l))
         (pending session ++ inserted session).

End Defs.

Arguments Event : clear implicits.
Arguments AsyncSession : clear implicits.

Section Dict.

Context {Payload : Type}.

(** What a [DBEvent] holds under a key: the type, a string, or the
    payload. *)
Inductive item : Type :=
  | Str (s : string)
  | Data (payload : Payload).

(** [DBEvent(type, payload)]: [super().__init__(type=type,
    payload=payload)] on a [dict]. *)
Definition DBEvent (type : string) (payload : Payload)
    : gmap string item :=
  <["payload" := Data payload]> (<["type" := Str type]> ∅).

(** [self[key]]: the value, or [KeyError(key)]. *)
Definition getitem (self : gmap string item) (key : string)
    : string + item :=
  match self !! key with
  | Some v => inr v
  | None => inl key
  end.

(** The properties [event_type] and [event_payload]. *)
Definition event_type (self : gmap string item) : string + item :=
  getitem self "type".

Definition event_payload (self : gmap string item) : string + item :=
  getitem self "payload".

End Dict.

Arguments item : clear implicits.

End Base.

(** ** pgebus/config.py *)

Module Config.

#[local] Open Scope Z_scope.

(** [DatabaseConfig], without the nested engine options, which nothing
    below reads. *)
Record DatabaseConfig : Type := mkDatabaseConfig {
  host : string;
  port : Z;
  database : string;
  user : string;
  password : string;
  application_name : option string;
  schema_name : string
}.

(** [DatabaseConfig()]. *)
Definition DatabaseConfig_default : DatabaseConfig :=
  {| host := "localhost";
     port := 5432;
     database := "postgres";
     user := "postgres";
     password := "postgres";
     application_name := None;
     schema_name := "pgebus" |}.

(** [EventSystemConfig]. A [float] is the rational it denotes. *)
Record EventSystemConfig : Type := mkEventSystemConfig {
  channel : string;
  n_workers : Z;
  queue_maxsize : Z;
  max_retries : Z;
  poll_interval : Q;
  shutdown_wait_timeout : Q;
  shutdown_wait_for_completion : bool
}.

(** The keyword arguments of [EventSystemConfig(...)]: each field is either
    supplied, with a value of the field's type, or left out. *)
Record kwargs : Type := mkKwargs {
  kw_channel : option string;
  kw_n_workers : option Z;
  kw_queue_maxsize : option Z;
  kw_max_retries : option Z;
  kw_poll_interval : option Q;
  kw_shutdown_wait_timeout : option Q;
  kw_shutdown_wait_for_completion : option bool
}.

(** [EventSystemConfig()]: nothing supplied. *)
Definition no_kwargs : kwargs :=
  mkKwargs None None None None None None None.

(** [Field(default=..., ge=..., le=...)] on an [int] and on a [float]. *)
Record IntField : Type := mkIntField {
  int_default : Z;
  int_ge : option Z;
  int_le : option Z
}.

Record FloatField : Type := mkFloatField {
  float_default : Q;
  float_ge : option Q;
  float_le : option Q
}.

Definition n_workers_field : IntField := mkIntField 5 (Some 1) (Some 100).
Definition queue_maxsize_field : IntField := mkIntField 1000 (Some 0) None.
Definition max_retries_field : IntField := mkIntField 3 (Some 0) (Some 10).
Definition poll_interval_field : FloatField :=
  mkFloatField 1%Q (Some (1 # 10)%Q) (Some 60%Q).
Definition shutdown_wait_timeout_field : FloatField :=
  mkFloatField 30%Q (Some 0%Q) None.

(** The bounds of a field hold of a supplied value. *)
Definition int_ok (f : IntField) (v : Z) : bool :=
  match int_ge f with Some b => (b <=? v)%Z | None => true end &&
  match int_le f with Some b => (v <=? b)%Z | None => true end.

Definition float_ok (f : FloatField) (v : Q) : bool :=
  match float_ge f with Some b => Qle_bool b v | None => true end &&
  match float_le f with Some b => Qle_bool v b | None => true end.

(** Validating one field: a value left out takes the default, which is
    not checked; a supplied value is checked against the bounds. The
    result is the value or the name of the offending field. *)
Definition validate_int (name : string) (f : IntField) (v : option Z)
    : string + Z :=
  match v with
  | None => inr (int_default f)
  | Some v => if int_ok f v then inr v else inl name
  end.

Definition validate_float (name : string) (f : FloatField) (v : option Q)
    : string + Q :=
  match v with
  | None => inr (float_default f)
  | Some v => if float_ok f v then inr v else inl name
  end.

(** The fields named in a validation error. *)
Definition errors_of {A} (r : string + A) : list string :=
  match r with
  | inl name => [name]
  | inr _ => []
  end.

(** Constructing the model either gives the configuration or raises a
    [ValidationError] naming every offending field. *)
Inductive constructed : Type :=
  | Valid (config : EventSystemConfig)
  | ValidationError (fields : list string).

(** Calling [EventSystemConfig] with keyword arguments. *)
Definition EventSystemConfig_new (kw : kwargs) : constructed :=
  let n_workers := validate_int "n_workers" n_workers_field (kw_n_workers kw) in
  let queue_maxsize :=
    validate_int "queue_maxsize" queue_maxsize_field (kw_queue_maxsize kw) in
  let max_retries :=
    validate_int "max_retries" max_retries_field (kw_max_retries kw) in
  let poll_interval :=
    validate_float "poll_interval" poll_interval_field
      (kw_poll_interval kw) in
  let shutdown_wait_timeout :=
    validate_float "shutdown_wait_timeout" shutdown_wait_timeout_field
      (kw_shutdown_wait_timeout kw) in
  match n_workers, queue_maxsize, max_retries, poll_interval,
        shutdown_wait_timeout with
  | inr n, inr q, inr r, inr p, inr t =>
      Valid
        {| channel := default "events" (kw_channel kw);
           n_workers := n;
           queue_maxsize := q;
           max_retries := r;
           poll_interval := p;
           shutdown_wait_timeout := t;
           shutdown_wait_for_completion :=
             default true (kw_shutdown_wait_for_completion kw) |}
  | _, _, _, _, _ =>
      ValidationError
        (errors_of n_workers ++ errors_of queue_maxsize ++
         errors_of max_retries ++ errors_of poll_interval ++
         errors_of shutdown_wait_timeout)
  end.

(** [Settings], with the two sections it holds. *)
Record Settings : Type := mkSettings {
  settings_database : DatabaseConfig;
  event_system : EventSystemConfig
}.

(** *** The ranges in the words of the specification *)

(** A supplied worker count outside 1..100, a supplied negative queue
    size, a supplied retry bound outside 0..10, a supplied poll interval
    outside 0.1..60 seconds. *)
Definition out_of_range (kw : kwargs) : Prop :=
  (exists v, kw_n_workers kw = Some v /\ (v < 1 \/ 100 < v)) \/
  (exists v, kw_queue_maxsize kw = Some v /\ v < 0) \/
  (exists v, kw_max_retries kw = Some v /\ (v < 0 \/ 10 < v)) \/
  (exists v, kw_poll_interval kw = Some v /\
             (v < 1 # 10 \/ 60 < v)%Q).

(** A supplied negative shutdown wait. *)
Definition negative_shutdown_wait (kw : kwargs) : Prop :=
  exists v, kw_shutdown_wait_timeout kw = Some v /\ (v < 0)%Q.

Definition raises (c : constructed) : Prop :=
  exists fields, c = ValidationError fields.

(** *** Connection strings *)

(** [DatabaseConfig.sqlalchemy_url]. *)
Definition sqlalchemy_url (self : DatabaseConfig) : string :=
  "postgresql+asyncpg://" +:+ user self +:+ ":" +:+ password self +:+
  "@" +:+ host self +:+ ":" +:+ Py.str_int (port self) +:+
  "/" +:+ database self.

(** [DatabaseConfig.asyncpg_dsn]. *)
Definition asyncpg_dsn (self : DatabaseConfig) : string :=
  "postgresql://" +:+ user self +:+ ":" +:+ password self +:+
  "@" +:+ host self +:+ ":" +:+ Py.str_int (port self) +:+
  "/" +:+ database self.

(** [DatabaseConfig.search_path], an [Optional[str]]. *)
Definition search_path (self : DatabaseConfig) : option string :=
  Some (schema_name self +:+ ",public").

(** *** Engine options *)

Section Engine.

(** Values handed to the engine are opaque; [json_dumps] is what
    [json.dumps(value, ensure_ascii=False)] computes and [json_loads] what
    [json.loads] computes. *)
Context {Any : Type}.
Context (json_dumps : Any -> string) (json_loads : string -> Any).

(** [EngineConfig]. *)
Record EngineConfig : Type := mkEngineConfig {
  pool_size : Z;
  max_overflow : Z;
  pool_timeout : Z;
  pool_pre_ping : bool;
  pool_recycle : Z;
  connect_args : gmap string Any;
  json_serializer : option (Py.callable Any string);
  json_deserializer : option (Py.callable string Any)
}.

(** [EngineConfig()]. *)
Definition EngineConfig_default : EngineConfig :=
  mkEngineConfig 5 2 120 true 3600 ∅ None None.

(** A value of the dictionary [engine_kwargs] builds. *)
Inductive kwarg : Type :=
  | KInt (n : Z)
  | KBool (b : bool)
  | KDict (d : gmap string Any)
  | KSerializer (f : Py.callable Any string)
  | KDeserializer (f : Py.callable string Any).

(** [EngineConfig.engine_kwargs()]. *)
Definition engine_kwargs (self : EngineConfig) : gmap string kwarg :=
  let kwargs : gmap string kwarg :=
    <["pool_recycle" := KInt (pool_recycle self)]>
      (<["pool_pre_ping" := KBool (pool_pre_ping self)]>
        (<["pool_timeout" := KInt (pool_timeout self)]>
          (<["max_overflow" := KInt (max_overflow self)]>
            (<["pool_size" := KInt (pool_size self)]> ∅)))) in
  let kwargs :=
    if decide (connect_args self = ∅) then kwargs
    else <["connect_args" := KDict (connect_args self)]> kwargs in
  let _default_json_serializer := Py.function json_dumps in
  let kwargs :=
    <["json_serializer" :=
        KSerializer
          (Py.or_else (json_serializer self) _default_json_serializer)]>
      kwargs in
  let kwargs :=
    <["json_deserializer" :=
        KDeserializer
          (Py.or_else (json_deserializer self) (Py.function json_loads))]>
      kwargs in
  kwargs.

End Engine.

Arguments EngineConfig : clear implicits.
Arguments kwarg : clear implicits.

(** *** Bounds in the words of the field declarations *)

(** Every bounded field of a configuration is within its bounds. *)
Definition within_bounds (c : EventSystemConfig) : Prop :=
  1 <= n_workers c <= 100 /\
  0 <= queue_maxsize c /\
  0 <= max_retries c <= 10 /\
  (1 # 10 <= poll_interval c /\ poll_interval c <= 60)%Q /\
  (0 <= shutdown_wait_timeout c)%Q.

End Config.

(** ** pgebus/system.py *)

Module System.

(** What a collaborator hands back: nothing, a number, or a reference to an
    object it owns (a session, a connection). *)
Inductive Value : Type :=
  | VNone
  | VInt (n : Z)
  | VRef (l : nat).

(** [sqlalchemy.schema.CreateSchema(name, if_not_exists=...)]. *)
Inductive DDL : Type :=
  | CreateSchema (name : string) (if_not_exists : bool).

(** The database's reading of the statement: creating a schema that exists
    is an error, unless the statement says [IF NOT EXISTS], in which case
    nothing changes. The result is the set of schemas afterwards. *)
Definition run_ddl (stmt : DDL) (schemas : gset string)
    : option (gset string) :=
  match stmt with
  | CreateSchema name if_not_exists =>
      if decide (name ∈ schemas)
      then (if if_not_exists then Some schemas else None)
      else Some ({[name]} ∪ schemas)
  end.

(** The collaborators [EventSystem] builds are not among the sources; each
    is the record of the arguments it was constructed with. *)
Record DatabaseSessionManager : Type := mkSessionManager {
  manager_db : Config.DatabaseConfig
}.

Inductive EventRepository : Type := mkEventRepository.

Record EventQueue : Type := mkEventQueue {
  queue_event_repo : EventRepository;
  queue_session_manager : DatabaseSessionManager;
  maxsize : Z
}.

Record EventListener : Type := mkEventListener {
  connection : Value;
  listener_event_queue : EventQueue;
  listener_channel : string
}.

Section Defs.

(** The router is handed on to the workers; exceptions and the state of
    everything outside the facade are opaque. *)
Context {Router Exn World : Type}.

Record EventWorkerPool : Type := mkEventWorkerPool {
  pool_event_queue : EventQueue;
  pool_event_repo : EventRepository;
  pool_router : Router;
  pool_session_manager : DatabaseSessionManager;
  pool_n_workers : Z;
  pool_max_retries : Z;
  pool_poll_interval : Q
}.

(** The attributes of an [EventSystem]. *)
Record EventSystem : Type := mkEventSystem {
  router : Router;
  settings : Config.Settings;
  db : Config.DatabaseConfig;
  channel : string;
  n_workers : Z;
  queue_maxsize : Z;
  max_retries : Z;
  poll_interval : Q;
  session_manager : DatabaseSessionManager;
  event_repo : EventRepository;
  event_queue : EventQueue;
  listener : option EventListener;
  worker_pool : option EventWorkerPool;
  _connection : Value
}.

(** [EventSystem.__init__(router, settings)]. *)
Definition __init__ (router : Router) (settings : Config.Settings)
    : EventSystem :=
  let db := Config.settings_database settings in
  let channel := Config.channel (Config.event_system settings) in
  let n_workers := Config.n_workers (Config.event_system settings) in
  let queue_maxsize := Config.queue_maxsize (Config.event_system settings) in
  let max_retries := Config.max_retries (Config.event_system settings) in
  let poll_interval := Config.poll_interval (Config.event_system settings) in
  let session_manager := mkSessionManager db in
  let event_repo := mkEventRepository in
  let event_queue := mkEventQueue event_repo session_manager queue_maxsize in
  {| router := router;
     settings := settings;
     db := db;
     channel := channel;
     n_workers := n_workers;
     queue_maxsize := queue_maxsize;
     max_retries := max_retries;
     poll_interval := poll_interval;
     session_manager := session_manager;
     event_repo := event_repo;
     event_queue := event_queue;
     listener := None;
     worker_pool := None;
     _connection := VNone |}.

(** *** Calls into the collaborators *)

(** Every awaited or plain call the facade makes on a collaborator. *)
Inductive Call : Type :=
  | session_enter (manager : DatabaseSessionManager)
  | session_execute (session : Value) (stmt : DDL)
  | session_commit (session : Value)
  | session_exit (manager : DatabaseSessionManager) (session : Value)
  | create_listener_connection (db : Config.DatabaseConfig)
  | listener_start (l : EventListener)
  | listener_stop (l : EventListener)
  | pool_start (p : EventWorkerPool)
  | pool_wait_until_empty (p : EventWorkerPool) (timeout : option Q)
  | pool_stop (p : EventWorkerPool)
  | pool_get_worker_count (p : EventWorkerPool)
  | session_manager_close (manager : DatabaseSessionManager)
  | queue_qsize (q : EventQueue).

(** The environment answers a call: it moves to a new state and either
    returns a value or raises. *)
Context (perform : Call -> World -> World * (Exn + Value)).

(** The facade object, the environment, and the calls made so far. *)
Record State : Type := mkState {
  self : EventSystem;
  world : World;
  trace : list Call
}.

(** A method body: it changes the state and returns or raises. *)
Definition M (A : Type) : Type := State -> State * (Exn + A).

Definition ret {A} (a : A) : M A := fun st => (st, inr a).

Definition bind {A B} (m : M A) (k : A -> M B) : M B :=
  fun st =>
    match m st with
    | (st', inl exn) => (st', inl exn)
    | (st', inr a) => k a st'
    end.

(** Awaiting a collaborator. *)
Definition call (c : Call) : M Value :=
  fun st =>
    let (w, r) := perform c (world st) in
    (mkState (self st) w (trace st ++ [c]), r).

(** Reading [self]. *)
Definition get_self : M EventSystem := fun st => (st, inr (self st)).

(** Assigning attributes of [self]. *)
Definition set_self (f : EventSystem -> EventSystem) : M unit :=
  fun st => (mkState (f (self st)) (world st) (trace st), inr tt).

(** [try: m finally: cleanup]. *)
Definition finally {A} (m : M A) (cleanup : M unit) : M A :=
  fun st =>
    match m st with
    | (st', r) =>
        match cleanup st' with
        | (st'', inl exn) => (st'', inl exn)
        | (st'', inr _) => (st'', r)
        end
    end.

#[local] Notation "x <- m ;; k" := (bind m (fun x => k))
  (at level 100, m at next level, right associativity).
#[local] Notation "m ;;; k" := (bind m (fun _ => k))
  (at level 100, k at level 200, right associativity).

(** Modelled from the spec: [DatabaseSessionManager.session] is not among
    the sources. [async with manager.session() as session] opens a scoped
    session that is released on every exit path. *)
Definition async_with_session {A} (manager : DatabaseSessionManager)
    (body : Value -> M A) : M A :=
  session <- call (session_enter manager) ;;
  finally (body session)
          (call (session_exit manager session) ;;; ret tt).

Definition set__connection (v : Value) (s : EventSystem) : EventSystem :=
  mkEventSystem (router s) (settings s) (db s) (channel s) (n_workers s)
    (queue_maxsize s) (max_retries s) (poll_interval s) (session_manager s)
    (event_repo s) (event_queue s) (listener s) (worker_pool s) v.

Definition set_listener (l : option EventListener) (s : EventSystem)
    : EventSystem :=
  mkEventSystem (router s) (settings s) (db s) (channel s) (n_workers s)
    (queue_maxsize s) (max_retries s) (poll_interval s) (session_manager s)
    (event_repo s) (event_queue s) l (worker_pool s) (_connection s).

Definition set_worker_pool (p : option EventWorkerPool) (s : EventSystem)
    : EventSystem :=
  mkEventSystem (router s) (settings s) (db s) (channel s) (n_workers s)
    (queue_maxsize s) (max_retries s) (poll_interval s) (session_manager s)
    (event_repo s) (event_queue s) (listener s) p (_connection s).

(** [EventSystem.start()]. Logging is left out. *)
Definition start : M unit :=
  s <- get_self ;;
  async_with_session (session_manager s) (fun session =>
    s <- get_self ;;
    call (session_execute session
            (CreateSchema (Config.schema_name (db s)) true)) ;;;
    call (session_commit session)) ;;;
  s <- get_self ;;
  conn <- call (create_listener_connection (db s)) ;;
  set_self (set__connection conn) ;;;
  s <- get_self ;;
  set_self (set_listener
    (Some (mkEventListener (_connection s) (event_queue s) (channel s)))) ;;;
  s <- get_self ;;
  match listener s with
  | Some l => call (listener_start l)
  | None => ret VNone
  end ;;;
  s <- get_self ;;
  set_self (set_worker_pool
    (Some (mkEventWorkerPool (event_queue s) (event_repo s) (router s)
             (session_manager s) (n_workers s) (max_retries s)
             (poll_interval s)))) ;;;
  s <- get_self ;;
  match worker_pool s with
  | Some p => call (pool_start p)
  | None => ret VNone
  end ;;;
  ret tt.

(** [EventSystem.stop(wait_for_completion=True, timeout=30.0)]. *)
Definition stop (wait_for_completion : bool) (timeout : option Q)
    : M unit :=
  s <- get_self ;;
  match listener s with
  | Some l => call (listener_stop l)
  | None => ret VNone
  end ;;;
  s <- get_self ;;
  match wait_for_completion, worker_pool s with
  | true, Some p => call (pool_wait_until_empty p timeout)
  | _, _ => ret VNone
  end ;;;
  s <- get_self ;;
  match worker_pool s with
  | Some p => call (pool_stop p)
  | None => ret VNone
  end ;;;
  s <- get_self ;;
  call (session_manager_close (session_manager s)) ;;;
  ret tt.

(** [EventSystem.get_queue_size()]. *)
Definition get_queue_size : M Value :=
  s <- get_self ;;
  call (queue_qsize (event_queue s)).

(** [EventSystem.get_worker_count()]. *)
Definition get_worker_count : M Value :=
  s <- get_self ;;
  match worker_pool s with
  | Some p => call (pool_get_worker_count p)
  | None => ret (VInt 0)
  end.

(** *** The lifecycle in the words of the specification *)

(** The listener and the pool of a facade with the given attributes, the
    listener on the given connection. *)
Definition built_listener (s : EventSystem) (conn : Value)
    : EventListener :=
  mkEventListener conn (event_queue s) (channel s).

Definition built_pool (s : EventSystem) : EventWorkerPool :=
  mkEventWorkerPool (event_queue s) (event_repo s) (router s)
    (session_manager s) (n_workers s) (max_retries s) (poll_interval s).

(** Ensure the schema (in a session of its own, creating it only if it
    does not exist), open the listener connection, start the listener,
    start the pool. *)
Definition start_order (s : EventSystem) (session conn : Value)
    : list Call :=
  [ session_enter (session_manager s);
    session_execute session (CreateSchema (Config.schema_name (db s)) true);
    session_commit session;
    session_exit (session_manager s) session;
    create_listener_connection (db s);
    listener_start (built_listener s conn);
    pool_start (built_pool s) ].

(** A facade on which [start] has run to its end. *)
Definition started (s : EventSystem) : Prop :=
  exists l p, listener s = Some l /\ worker_pool s = Some p.

(** Stop the listener, wait for the queue to drain if asked to, stop the
    pool, close the session factory. *)
Definition stop_order (s : EventSystem) (l : EventListener)
    (p : EventWorkerPool) (wait_for_completion : bool)
    (timeout : option Q) : list Call :=
  [listener_stop l] ++
  (if wait_for_completion then [pool_wait_until_empty p timeout] else []) ++
  [pool_stop p; session_manager_close (session_manager s)].

(** The environment answers every call by returning. *)
Definition always_returns : Prop :=
  forall c w, exists v, (perform c w).2 = inr v.

(** The calls made by running [m] from [st]. *)
Definition calls_of {A} (m : M A) (st : State) : list Call :=
  drop (length (trace st)) (trace (m st).1).

End Defs.

Arguments EventWorkerPool : clear implicits.
Arguments EventSystem : clear implicits.
Arguments Call : clear implicits.
Arguments State : clear implicits.
Arguments M : clear implicits.

End System.

(** ** Concrete scenarios

    Small closed instances of the models above, on which the definitions
    are evaluated. *)

Module Scenario.
Import Routing.

(** Endpoints here act on a session that is the list of statements they
    have executed; they raise a message or return nothing. *)
Definition Session : Type := list string.
Definition Router : Type := EventRouter Session unit string unit.
Definition Handler : Type := Endpoint Session unit string unit.

Definition records (stmt : string) : Handler :=
  fun session _ => (session ++ [stmt], inr tt).

Definition fails (msg : string) : Handler :=
  fun session _ => (session, inl msg).

Definition event (ty : string) : DBEvent unit := mkDBEvent ty tt.

(** One route whose handler raises. *)
Definition failing_router : Router :=
  add_event_route "a.b" (fails "boom") (__init__ "").

(** Two routes registered on the same path. *)
Definition duplicate_router : Router :=
  add_event_route "a.b" (records "second")
    (add_event_route "a.b" (records "first") (__init__ "")).

(** A router built with a prefix of its own and one route. *)
Definition child_router : Router :=
  add_event_route "leaf" (records "leaf handler") (__init__ "child").

Definition parent_router : Router :=
  add_event_route "ping" (records "ping handler") (__init__ "").

(** A store holding the parent at 0 and the child at 1. *)
Definition two_routers : gmap loc Router :=
  <[1 := child_router]> (<[0 := parent_router]> ∅).

(** [EventSystemConfig(shutdown_wait_timeout=-1.0)]. *)
Definition negative_wait : Config.kwargs :=
  Config.mkKwargs None None None None None (Some (-1)%Q) None.

(** An engine configuration whose serializer is an object that can be
    called but is false, as an instance of a class defining [__call__] and
    [__len__] can be. *)
Definition false_serializer : Config.EngineConfig unit :=
  Config.mkEngineConfig 5 2 120 true 3600 ∅
    (Some (Py.mkCallable (fun _ => "custom") false)) None.

(** [EventSystemConfig(n_workers=8, poll_interval=0.5)]. *)
Definition eight_workers : Config.kwargs :=
  Config.mkKwargs None (Some 8%Z) None None (Some (1 # 2)%Q) None None.

(** A third router, at 2, into which the parent can be mounted. *)
Definition root_router : Router :=
  add_event_route "health" (records "health handler") (__init__ "api").

Definition three_routers : gmap loc Router :=
  <[2 := root_router]> two_routers.

(** A store holding a single router that has no routes. *)
Definition lone_router : gmap loc Router :=
  <[0 := __init__ "unused"]> ∅.

(** *** A session for the producer *)

(** Identifiers are numbers printed in decimal, handed out in sequence. *)
Definition decimal (n : nat) : string :=
  NilZero.string_of_uint (Nat.to_uint n).

Inductive EventSource : Type := INTERNAL | EXTERNAL.

(** A session holding one row that was added and not yet flushed, on a
    database that has handed out 41 identifiers. *)
Definition one_pending
    : Base.AsyncSession nat (list (string * Z)) EventSource Z :=
  Base.mkSession
    (<[0 := Base.mkEvent None "template.version.created"
              [("template_id", 7%Z)] EXTERNAL None]> ∅)
    [0] [] [] 41 [].

(** *** An environment for the facade *)

(** [Settings()] with every default. *)
Definition default_settings : Config.Settings :=
  Config.mkSettings Config.DatabaseConfig_default
    (Config.mkEventSystemConfig "events" 5 1000 3 1%Q 30%Q true).

(** An environment in which every call returns nothing and changes
    nothing. *)
Definition calm (c : System.Call Router) (w : unit)
    : unit * (string + System.Value) :=
  (w, inr System.VNone).

(** An environment like the calm one, but for a listener that cannot be
    stopped. *)
Definition stubborn (c : System.Call Router) (w : unit)
    : unit * (string + System.Value) :=
  match c with
  | System.listener_stop _ => (w, inl "listener busy")
  | _ => (w, inr System.VNone)
  end.

(** A database and a process: the schemas that exist, the number of
    handles given out, of listeners listening and of workers running, the
    identifiers waiting in the queue, and whether the session factory has
    been closed. *)
Record Env : Type := mkEnv {
  schemas : gset string;
  handles : nat;
  listeners : nat;
  workers : Z;
  queued : list Z;
  factory_closed : bool
}.

(** Modelled from the spec: the session manager, the listener, the pool
    and the queue are not among the sources. A session or a connection is
    a new handle; executing a statement is [run_ddl]; starting a listener
    or a pool adds a listener or the pool's workers, stopping removes
    them; waiting drains the queue; the queue reports how many identifiers
    it holds. *)
Definition respond (c : System.Call Router) (w : Env)
    : Env * (string + System.Value) :=
  match c with
  | System.session_enter _ | System.create_listener_connection _ =>
      (mkEnv (schemas w) (S (handles w)) (listeners w) (workers w)
         (queued w) (factory_closed w),
       inr (System.VRef (handles w)))
  | System.session_execute _ stmt =>
      match System.run_ddl stmt (schemas w) with
      | Some schemas' =>
          (mkEnv schemas' (handles w) (listeners w) (workers w) (queued w)
             (factory_closed w),
           inr System.VNone)
      | None => (w, inl "DuplicateSchema")
      end
  | System.session_commit _ | System.session_exit _ _ =>
      (w, inr System.VNone)
  | System.listener_start _ =>
      (mkEnv (schemas w) (handles w) (S (listeners w)) (workers w)
         (queued w) (factory_closed w),
       inr System.VNone)
  | System.listener_stop _ =>
      (mkEnv (schemas w) (handles w) (pred (listeners w)) (workers w)
         (queued w) (factory_closed w),
       inr System.VNone)
  | System.pool_start p =>
      (mkEnv (schemas w) (handles w) (listeners w)
         (workers w + System.pool_n_workers p)%Z (queued w)
         (factory_closed w),
       inr System.VNone)
  | System.pool_wait_until_empty _ _ =>
      (mkEnv (schemas w) (handles w) (listeners w) (workers w) []
         (factory_closed w),
       inr System.VNone)
  | System.pool_stop p =>
      (mkEnv (schemas w) (handles w) (listeners w)
         (Z.max 0 (workers w - System.pool_n_workers p)) (queued w)
         (factory_closed w),
       inr System.VNone)
  | System.pool_get_worker_count _ => (w, inr (System.VInt (workers w)))
  | System.session_manager_close _ =>
      (mkEnv (schemas w) (handles w) (listeners w) (workers w) (queued w)
         true,
       inr System.VNone)
  | System.queue_qsize _ =>
      (w, inr (System.VInt (Z.of_nat (length (queued w)))))
  end.

(** A database in which the schema already exists, and nothing running. *)
Definition quiet : Env := mkEnv {["pgebus"]} 0 0 0 [] false.

(** A facade just constructed, in either environment. *)
Definition constructed : System.EventSystem Router :=
  System.__init__ parent_router default_settings.

Definition at_rest : System.State Router unit :=
  System.mkState constructed tt [].

Definition at_rest_quiet : System.State Router Env :=
  System.mkState constructed quiet [].

(** The same facade after one [start]. *)
Definition running : System.State Router unit :=
  (System.start calm at_rest).1.

Definition running_quiet : System.State Router Env :=
  (System.start respond at_rest_quiet).1.

End Scenario.

(** ** Facts about the router *)

Module RoutingFacts.
Import Routing.

Section Facts.
Context {AsyncSession Payload Exn Any : Type}.

#[local] Abbreviation Endpoint' := (Routing.Endpoint AsyncSession Payload Exn Any).
#[local] Abbreviation EventRouter' :=
  (Routing.EventRouter AsyncSession Payload Exn Any).
#[local] Abbreviation DBEvent' := (Routing.DBEvent Payload).

Implicit Types (r : EventRouter') (ev : DBEvent') (session : AsyncSession).
Implicit Types (handlers : list (string * Endpoint')) (endpoint : Endpoint').

(** *** Looking routes up *)

Lemma first_route_earliest handlers ty endpoint :
  first_route handlers ty = Some endpoint <->
  exists i, earliest handlers ty i endpoint.
Proof.
  induction handlers as [|[path e] rest IH]; simpl.
  - split; [discriminate|]. intros [i [H _]]. by rewrite lookup_nil in H.
  - destruct (String.eqb_spec path ty) as [->|Hne].
    + split.
      * intros [= ->]. exists 0. split; [done|]. intros; lia.
      * intros [[|i] [Hi Hbefore]].
        -- simpl in Hi. by inversion Hi.
        -- exfalso. eapply (Hbefore 0 ty e); [lia|done|done].
    + rewrite IH. split.
      * intros [i [Hi Hbefore]]. exists (S i). split; [done|].
        intros [|j] p e' Hj Hl; simpl in Hl.
        -- by inversion Hl; subst.
        -- eapply Hbefore; [|done]. lia.
      * intros [[|i] [Hi Hbefore]].
        -- simpl in Hi. inversion Hi; subst. done.
        -- exists i. split; [done|]. intros j p e' Hj Hl.
           eapply (Hbefore (S j)); [lia|done].
Qed.

Lemma first_route_None handlers ty :
  first_route handlers ty = None <-> ~ routed handlers ty.
Proof.
  unfold routed. induction handlers as [|[path e] rest IH]; simpl.
  - split; [|done]. intros _ [ep H]. by apply elem_of_nil in H.
  - destruct (String.eqb_spec path ty) as [->|Hne].
    + split; [discriminate|]. intros H. exfalso. apply H. exists e. left.
    + rewrite IH. split.
      * intros H [ep Hin]. apply elem_of_cons in Hin as [Heq|Hin].
        -- inversion Heq; subst. done.
        -- apply H. by exists ep.
      * intros H [ep Hin]. apply H. exists ep. by right.
Qed.

Lemma first_route_routed handlers ty :
  is_Some (first_route handlers ty) <-> routed handlers ty.
Proof.
  destruct (first_route handlers ty) eqn:E.
  - split; [|by eauto]. intros _.
    destruct (first_route_None handlers ty) as [_ H].
    apply first_route_earliest in E as [i [Hi _]].
    exists e. eapply list_elem_of_lookup_2. done.
  - apply first_route_None in E. split; [|done].
    intros [x Hx]. discriminate.
Qed.

(** [handle] awaits the earliest matching endpoint, if any, and nothing
    else. *)
Lemma handle_first_route r session ev :
  handle r session ev =
  match first_route (event_handlers r) (type ev) with
  | None => mkHandled session [] (inr false)
  | Some endpoint =>
      mkHandled (fst (endpoint session ev)) [endpoint]
        match snd (endpoint session ev) with
        | inl exn => inl exn
        | inr _ => inr true
        end
  end.
Proof.
  unfold handle. induction (event_handlers r) as [|[path e] rest IH]; simpl.
  - done.
  - destruct (String.eqb path (type ev)); [|done].
    by destruct (e session ev) as [s' [exn|v]].
Qed.

(** *** Paths of mounted routes *)

Lemma truthy_nonempty s : Py.truthy s = bool_decide (s <> "").
Proof. by destruct s. Qed.

(** The list the loop body builds holds the non-empty strings among its
    three inputs, in order. *)
Lemma parts_of_filter extra rprefix path :
  parts_of extra rprefix path =
  filter (fun s => s <> "") [extra; rprefix; path].
Proof.
  unfold parts_of. rewrite !truthy_nonempty.
  rewrite !filter_cons, filter_nil.
  repeat case_bool_decide; repeat case_decide; done.
Qed.

Lemma join_parts_dotted extra rprefix path :
  Py.join "." (parts_of extra rprefix path) = dotted extra rprefix path.
Proof. unfold dotted. by rewrite parts_of_filter. Qed.

Lemma dotted_all extra rprefix path :
  extra <> "" -> rprefix <> "" -> path <> "" ->
  dotted extra rprefix path = extra +:+ "." +:+ rprefix +:+ "." +:+ path.
Proof.
  intros. unfold dotted. rewrite !filter_cons, filter_nil.
  repeat case_decide; try done.
Qed.

Lemma dotted_no_extra rprefix path :
  rprefix <> "" -> path <> "" ->
  dotted "" rprefix path = rprefix +:+ "." +:+ path.
Proof.
  intros. unfold dotted. rewrite !filter_cons, filter_nil.
  repeat case_decide; try done.
Qed.

(** *** Mounting one router into another *)

Lemma router_eta r :
  {| prefix := prefix r; event_handlers := event_handlers r ++ [] |} = r.
Proof. destruct r. simpl. by rewrite app_nil_r. Qed.

(** From index [i] on, the loop appends the routes the child still has to
    contribute, provided the child is not the router being extended. *)
Lemma include_router_loop_distinct (extra : string) (self router : loc) :
  self <> router ->
  forall fuel i (h : gmap loc EventRouter') r c,
    h !! self = Some r ->
    h !! router = Some c ->
    length (event_handlers c) - i < fuel ->
    include_router_loop fuel self router extra i h =
    Py.Done (<[self :=
      {| prefix := prefix r;
         event_handlers :=
           event_handlers r ++
           map (fun route => (dotted extra (prefix c) (fst route), snd route))
               (drop i (event_handlers c)) |}]> h).
Proof.
  intros Hne. induction fuel as [|fuel IH]; intros i h r c Hs Hr Hfuel.
  { lia. }
  simpl. rewrite Hr. destruct c as [cprefix chandlers]. simpl in *.
  destruct (chandlers !! i) as [[path endpoint]|] eqn:Hi.
  - unfold add_event_route_at. rewrite Hs.
    pose proof (lookup_lt_Some _ _ _ Hi) as Hlt.
    rewrite (IH (S i) _
               (add_event_route (Py.join "." (parts_of extra cprefix path))
                  endpoint r)
               {| prefix := cprefix; event_handlers := chandlers |}).
    + rewrite insert_insert_eq. simpl.
      rewrite (drop_S _ _ _ Hi). simpl.
      rewrite join_parts_dotted. by rewrite <- app_assoc.
    + by rewrite lookup_insert_eq.
    + by rewrite lookup_insert_ne.
    + simpl. lia.
  - apply lookup_ge_None in Hi. rewrite drop_ge by done. simpl.
    rewrite router_eta. by rewrite insert_id.
Qed.

(** A router mounted into itself keeps feeding the loop that walks it. *)
Lemma include_router_loop_self (extra : string) (self : loc) :
  forall fuel i (h : gmap loc EventRouter') r,
    h !! self = Some r ->
    i < length (event_handlers r) ->
    include_router_loop fuel self self extra i h = Py.OutOfFuel.
Proof.
  induction fuel as [|fuel IH]; intros i h r Hs Hi; [done|].
  simpl. rewrite Hs. destruct r as [rprefix rhandlers]. simpl in *.
  destruct (lookup_lt_is_Some_2 rhandlers i Hi) as [[path endpoint] Hl].
  rewrite Hl. unfold add_event_route_at. rewrite Hs.
  eapply IH.
  - by rewrite lookup_insert_eq.
  - simpl. rewrite length_app. simpl. lia.
Qed.

Lemma length_append (s1 s2 : string) :
  String.length (s1 +:+ s2) = String.length s1 + String.length s2.
Proof. induction s1 as [|a s1 IH]; simpl; [done|]. by rewrite IH. Qed.

Lemma prefixed_path_differs (P path : string) : P +:+ "." +:+ path <> path.
Proof.
  intros H. apply (f_equal String.length) in H.
  rewrite !length_append in H. simpl in H. lia.
Qed.

Lemma first_route_app_l handlers1 handlers2 ty endpoint :
  first_route handlers1 ty = Some endpoint ->
  first_route (handlers1 ++ handlers2) ty = Some endpoint.
Proof.
  induction handlers1 as [|[path e] rest IH]; simpl; [done|].
  by destruct (String.eqb path ty).
Qed.

Lemma first_route_app_r handlers1 handlers2 ty :
  first_route handlers1 ty = None ->
  first_route (handlers1 ++ handlers2) ty = first_route handlers2 ty.
Proof.
  induction handlers1 as [|[path e] rest IH]; simpl; [done|].
  by destruct (String.eqb path ty).
Qed.

(** *** The dispatcher *)

(** C2, amended. [handle] returns true exactly when some registered route's
    path equals the event's type and the endpoint of the earliest such
    route returns; when that endpoint raises, the exception leaves
    [handle]; [handle] returns false exactly when no registered path equals
    the type, and then it awaits no endpoint and leaves the session as it
    was. *)
Theorem handle_true_iff_route_returns r session ev :
  (result (handle r session ev) = inr true <->
     exists i endpoint,
       earliest (event_handlers r) (type ev) i endpoint /\
       exists v, snd (endpoint session ev) = inr v) /\
  (forall exn,
     result (handle r session ev) = inl exn <->
     exists i endpoint,
       earliest (event_handlers r) (type ev) i endpoint /\
       snd (endpoint session ev) = inl exn) /\
  (result (handle r session ev) = inr false <->
     ~ routed (event_handlers r) (type ev)) /\
  (~ routed (event_handlers r) (type ev) ->
     handle r session ev = mkHandled session [] (inr false)).
Proof.
  rewrite handle_first_route.
  destruct (first_route (event_handlers r) (type ev)) as [e|] eqn:E.
  - assert (Hr : routed (event_handlers r) (type ev)).
    { apply first_route_routed. by rewrite E. }
    pose proof E as E'. apply first_route_earliest in E' as [i Hi].
    assert (Huniq : forall j e', earliest (event_handlers r) (type ev) j e' ->
                                 e' = e).
    { intros j e' Hj.
      assert (first_route (event_handlers r) (type ev) = Some e') as H'
        by (apply first_route_earliest; eauto).
      congruence. }
    simpl. repeat split.
    + intros H. exists i, e. split; [done|].
      destruct (snd (e session ev)) as [x|v]; [discriminate|eauto].
    + intros (j & e' & Hj & v & Hv). rewrite (Huniq _ _ Hj) in Hv.
      by rewrite Hv.
    + intros H. exists i, e. split; [done|].
      destruct (snd (e session ev)) as [x|v]; congruence.
    + intros (j & e' & Hj & Hv). rewrite (Huniq _ _ Hj) in Hv.
      by rewrite Hv.
    + intros H. destruct (snd (e session ev)); discriminate.
    + intros H. done.
    + intros H. done.
  - apply first_route_None in E. simpl. repeat split; try done.
    + intros (j & e' & Hj & _). exfalso. apply E. exists e'.
      destruct Hj as [Hj _]. eapply list_elem_of_lookup_2. done.
    + intros (j & e' & Hj & _). exfalso. apply E. exists e'.
      destruct Hj as [Hj _]. eapply list_elem_of_lookup_2. done.
Qed.


(** C3, amended. When the child is another router than the parent,
    [include_router(child, prefix)] returns and leaves the parent with its
    former routes followed by one route per route of the child, in order,
    bound to the same endpoint, under the dot-joined concatenation of the
    non-empty strings among the extra prefix, the child's prefix and the
    route's path; all three non-empty give [extra.child.leaf]. *)
Theorem include_router_mounts_child
    (h : gmap loc EventRouter') (self router : loc) (extra : string)
    (parent child : EventRouter') (fuel : nat) :
  self <> router ->
  h !! self = Some parent ->
  h !! router = Some child ->
  length (event_handlers child) < fuel ->
  include_router fuel self router extra h =
    Py.Done (<[self :=
      {| prefix := prefix parent;
         event_handlers := event_handlers parent ++ mounted extra child |}]>
      h) /\
  (forall path endpoint i,
     event_handlers child !! i = Some (path, endpoint) ->
     mounted extra child !! i =
       Some (dotted extra (prefix child) path, endpoint) /\
     (extra <> "" -> prefix child <> "" -> path <> "" ->
      dotted extra (prefix child) path =
        extra +:+ "." +:+ prefix child +:+ "." +:+ path)).
Proof.
  intros Hne Hs Hr Hfuel. split.
  - unfold include_router, mounted.
    rewrite (include_router_loop_distinct extra self router Hne
               fuel 0 h parent child Hs Hr) by lia.
    by rewrite drop_0.
  - intros path endpoint i Hi. split.
    + unfold mounted. rewrite list_lookup_fmap, Hi. done.
    + apply dotted_all.
Qed.

(** C8. The prefix a router was built with plays no part in its own
    dispatch: a route registered under [path] (by [add_event_route] or by
    [on]) is matched by events of type [path], not of type [P.path], and
    [handle] is the same whatever the prefix; the prefix shows only in the
    paths the router contributes when it is mounted into another one. *)
Theorem own_prefix_ignored_by_handle
    (P path : string) handlers endpoint session ev :
  P <> "" ->
  fst (on path {| prefix := P; event_handlers := handlers |} endpoint) =
    add_event_route path endpoint
      {| prefix := P; event_handlers := handlers |} /\
  (type ev = path ->
     exists e,
       invoked (handle (add_event_route path endpoint
                  {| prefix := P; event_handlers := handlers |})
                  session ev) = [e] /\
       (path, e) ∈ handlers ++ [(path, endpoint)] /\
       (~ routed handlers path -> e = endpoint)) /\
  (type ev = P +:+ "." +:+ path ->
     ~ routed handlers (type ev) ->
     handle (add_event_route path endpoint
               {| prefix := P; event_handlers := handlers |}) session ev =
     mkHandled session [] (inr false)) /\
  (forall P',
     handle (add_event_route path endpoint
               {| prefix := P'; event_handlers := handlers |}) session ev =
     handle (add_event_route path endpoint
               {| prefix := P; event_handlers := handlers |}) session ev) /\
  (forall (h : gmap loc EventRouter') self router parent fuel,
     self <> router ->
     h !! self = Some parent ->
     h !! router = Some (add_event_route path endpoint
                           {| prefix := P; event_handlers := handlers |}) ->
     S (length handlers) < fuel ->
     path <> "" ->
     exists parent',
       include_router fuel self router "" h =
         Py.Done (<[self := parent']> h) /\
       event_handlers parent' !!
         (length (event_handlers parent) + length handlers) =
         Some (P +:+ "." +:+ path, endpoint)).
Proof.
  intros HP. split; [done|]. split; [|split; [|split]].
  - intros Hty. rewrite handle_first_route. simpl. rewrite Hty.
    destruct (first_route handlers path) as [e|] eqn:E.
    + rewrite (first_route_app_l _ _ _ _ E). simpl. exists e.
      split; [done|]. split.
      * apply first_route_earliest in E as [i [Hi _]].
        apply elem_of_app. left. eapply list_elem_of_lookup_2. done.
      * intros Hn. apply first_route_None in Hn. congruence.
    + rewrite (first_route_app_r _ _ _ E). simpl.
      rewrite String.eqb_refl. simpl. exists endpoint.
      split; [done|]. split; [|done].
      apply elem_of_app. right. left.
  - intros Hty Hn. rewrite handle_first_route. simpl.
    apply first_route_None in Hn.
    rewrite (first_route_app_r _ _ _ Hn). simpl.
    destruct (String.eqb_spec path (type ev)) as [Heq|_]; [|done].
    exfalso. rewrite Hty in Heq. symmetry in Heq.
    by apply prefixed_path_differs in Heq.
  - intros P'. by rewrite !handle_first_route.
  - intros h self router parent fuel Hne Hs Hr Hfuel Hpath.
    eexists. split.
    + unfold include_router.
      rewrite (include_router_loop_distinct "" self router Hne
                 fuel 0 h parent _ Hs Hr); [done|].
      simpl. rewrite length_app. simpl. lia.
    + simpl. rewrite drop_0, fmap_app. simpl.
      rewrite lookup_app_r by lia.
      replace (length (event_handlers parent) + length handlers -
               length (event_handlers parent)) with (length handlers) by lia.
      rewrite lookup_app_r by (rewrite length_fmap; lia).
      rewrite length_fmap, Nat.sub_diag. simpl.
      by rewrite dotted_no_extra.
Qed.

End Facts.

(** *** Evaluations *)

Import Scenario.

(** C2 as stated fails: a registered route's path equals the event's
    type, yet [handle] does not return true, because the matched endpoint
    raises and the exception leaves [handle]. *)
Lemma handle_matched_route_raises :
  ~ (result (handle failing_router [] (event "a.b")) = inr true <->
     routed (event_handlers failing_router) (type (event "a.b"))).
Proof.
  intros [_ H]. cut (@inl string bool "boom" = inr true); [discriminate|].
  apply H. exists (fails "boom"). left.
Qed.

(** Of two routes on one path, only the first one's handler runs. *)
Example duplicate_path_runs_first :
  session_after (handle duplicate_router [] (event "a.b")) = ["first"] /\
  invoked (handle duplicate_router [] (event "a.b")) = [records "first"].
Proof. split; reflexivity. Qed.

(** C3 as stated fails when parent and child are one router: the loop
    never reaches the end of the list it is itself extending. *)
Lemma include_router_into_itself_never_returns :
  ~ exists fuel h',
      include_router fuel 0 0 "" (<[0 := parent_router]> ∅) = Py.Done h'.
Proof.
  intros (fuel & h' & H). unfold include_router in H.
  rewrite (include_router_loop_self "" 0 fuel 0 _ parent_router) in H.
  - discriminate.
  - reflexivity.
  - simpl. lia.
Qed.

(** Mounting the child, built with prefix "child" and a route "leaf", into
    the parent under the extra prefix "parent". *)
Lemma include_router_mounts_child_witness :
  0 <> 1 /\
  two_routers !! 0 = Some parent_router /\
  two_routers !! 1 = Some child_router /\
  length (event_handlers child_router) < 2 /\
  include_router 2 0 1 "parent" two_routers =
    Py.Done (<[0 :=
      {| prefix := "";
         event_handlers :=
           [("ping", records "ping handler");
            ("parent.child.leaf", records "leaf handler")] |}]> two_routers).
Proof.
  split; [lia|]. split; [reflexivity|]. split; [reflexivity|].
  split; [simpl; lia|].
  apply (include_router_mounts_child two_routers 0 1 "parent"
           parent_router child_router 2);
    [lia | reflexivity | reflexivity | simpl; lia].
Defined.

(** The child router, built with prefix "child", dispatches "leaf" and
    does not dispatch "child.leaf". *)
Lemma own_prefix_ignored_by_handle_witness :
  "child" <> "" /\
  handle child_router [] (event "leaf") =
    mkHandled ["leaf handler"] [records "leaf handler"] (inr true) /\
  handle child_router [] (event "child.leaf") =
    mkHandled [] [] (inr false).
Proof.
  split; [done|].
  destruct (own_prefix_ignored_by_handle "child" "leaf" []
              (records "leaf handler") [] (event "child.leaf"))
    as (_ & _ & Hno & _); [done|].
  split; [reflexivity|].
  apply Hno; [reflexivity|].
  intros [e He]. by apply elem_of_nil in He.
Defined.

End RoutingFacts.

(** ** Facts about the producer helper *)

Module BaseFacts.
Import Base.

Section Facts.
Context {Id Payload EventSource datetime : Type}.
Context (str : Id -> string) (nextval : nat -> Id).

#[local] Abbreviation Event' := (Base.Event Id Payload EventSource datetime).
#[local] Abbreviation AsyncSession' :=
  (Base.AsyncSession Id Payload EventSource datetime).

Implicit Types (session : AsyncSession') (objs : gmap loc Event').

(** Flushing leaves alone the objects it was not asked to insert. *)
Lemma flush_objects_other todo : forall objs seq l,
  l ∉ todo ->
  (flush_objects nextval todo objs seq).1 !! l = objs !! l.
Proof.
  induction todo as [|l0 rest IH]; intros objs seq l Hl; simpl; [done|].
  apply not_elem_of_cons in Hl as [Hne Hl].
  destruct (objs !! l0) as [[[i|] ty p s r]|] eqn:E; rewrite ?IH by done;
    try done.
  by rewrite lookup_insert_ne.
Qed.

Lemma flush_objects_app todo1 todo2 : forall objs seq,
  flush_objects nextval (todo1 ++ todo2) objs seq =
  flush_objects nextval todo2
    (flush_objects nextval todo1 objs seq).1
    (flush_objects nextval todo1 objs seq).2.
Proof.
  induction todo1 as [|l0 rest IH]; intros objs seq; simpl; [done|].
  by destruct (objs !! l0) as [[[i|] ty p s r]|].
Qed.

Lemma prefix_append (s t : string) : String.prefix s (s +:+ t) = true.
Proof.
  induction s as [|a s IH]; [by destruct t|].
  change (String a s +:+ t) with (String a (s +:+ t)).
  cbn [String.prefix]. by destruct (Ascii.ascii_dec a a).
Qed.

(** The statement [publish_event] sends is one the server refuses,
    whatever the channel and the identifier. *)
Lemma notify_refused (channel v : string) :
  refused {| sql := "NOTIFY " +:+ channel +:+ ", :event_id";
             params := [("event_id", v)] |} = true.
Proof.
  unfold refused. cbn [sql params]. by rewrite prefix_append.
Qed.

(** C1, what the code does instead. [publish_event] creates a new row
    object carrying the given type, payload, source and [run_at], adds it
    to the session and flushes, which gives the row its identifier; it then
    sends [NOTIFY <channel>, :event_id] with the text of that identifier,
    and nothing of the payload, as a bound parameter. The server refuses a
    [NOTIFY] with a bound parameter, so [session.execute] raises: no
    notification is issued and no row is returned. *)
Theorem publish_event_raises_at_notify
    session (event_type : string) (payload : Payload)
    (source : EventSource) (channel : string) (run_at : option datetime) :
  no_dangling session ->
  let out :=
    publish_event str nextval session event_type payload source channel
      run_at in
  let event := fresh (dom (objects session)) in
  let i :=
    nextval (flush_objects nextval (pending session) (objects session)
               (sequence session)).2 in
  let notify :=
    {| sql := "NOTIFY " +:+ channel +:+ ", :event_id";
       params := [("event_id", str i)] |} in
  out.2 = inl (ProgrammingError notify) /\
  objects session !! event = None /\
  objects out.1 !! event =
    Some (mkEvent (Some i) event_type payload source run_at) /\
  pending out.1 = [] /\
  inserted out.1 = inserted session ++ pending session ++ [event] /\
  executed out.1 = executed session /\
  calls out.1 = calls session ++ [Add event; Flush; Execute notify].
Proof.
  intros Hwf out event i notify.
  assert (Hfresh : objects session !! event = None).
  { apply not_elem_of_dom. apply is_fresh. }
  assert (Hnew : event ∉ pending session).
  { intros Hin. unfold no_dangling in Hwf. rewrite Forall_forall in Hwf.
    destruct (Hwf event) as [x Hx].
    - apply elem_of_app. by left.
    - congruence. }
  assert (Hseq : forall objs1 objs2 seq,
    (forall l', l' ∈ pending session -> objs1 !! l' = objs2 !! l') ->
    (flush_objects nextval (pending session) objs1 seq).2 =
    (flush_objects nextval (pending session) objs2 seq).2).
  { clear. induction (pending session) as [|l0 rest IH];
      intros objs1 objs2 seq Hsame; simpl; [done|].
    rewrite <- (Hsame l0) by left.
    destruct (objs1 !! l0) as [[[j|] ty p s r]|] eqn:E;
      try (apply IH; intros l' Hl'; apply Hsame; by right).
    apply IH. intros l' Hl'.
    destruct (decide (l0 = l')) as [->|Hne].
    - by rewrite !lookup_insert_eq.
    - rewrite !lookup_insert_ne by done. apply Hsame. by right. }
  assert (Hout : out =
    (mkSession
       (<[event := mkEvent (Some i) event_type payload source run_at]>
          (flush_objects nextval (pending session)
             (<[event := mkEvent None event_type payload source run_at]>
                (objects session))
             (sequence session)).1)
       []
       (inserted session ++ pending session ++ [event])
       (executed session)
       (S (flush_objects nextval (pending session) (objects session)
             (sequence session)).2)
       (calls session ++ [Add event; Flush; Execute notify]),
     inl (ProgrammingError notify))).
  { unfold out, publish_event, Event_new, add, flush, id_of. simpl.
    fold event. rewrite flush_objects_app. simpl.
    set (objs0 := <[event := mkEvent None event_type payload source run_at]>
                    (objects session)).
    rewrite (Hseq objs0 (objects session) (sequence session)).
    2:{ intros l' Hl'. unfold objs0. rewrite lookup_insert_ne; [done|].
        intros ->. done. }
    rewrite (flush_objects_other (pending session) objs0 (sequence session)
               event) by done.
    assert (Hl : objs0 !! event =
                 Some (mkEvent None event_type payload source run_at))
      by apply lookup_insert_eq.
    rewrite Hl. simpl. rewrite lookup_insert_eq. simpl.
    unfold execute. rewrite notify_refused. simpl.
    by rewrite <- !app_assoc. }
  rewrite Hout. split_and!; try done.
  simpl. by rewrite lookup_insert_eq.
Qed.

End Facts.

(** *** Evaluation *)

Import Scenario.

(** Publishing on a session that still holds an unflushed row: that row
    takes identifier 42, the published one 43, and the notification that
    was to carry "43" is refused. *)
Lemma publish_event_raises_at_notify_witness :
  no_dangling one_pending /\
  (publish_event decimal S one_pending "simulation.created"
     [("simulation_id", 123%Z)] INTERNAL "events" None).2 =
    inl (ProgrammingError
           {| sql := "NOTIFY events, :event_id";
              params := [("event_id", "43")] |}) /\
  objects
    (publish_event decimal S one_pending "simulation.created"
       [("simulation_id", 123%Z)] INTERNAL "events" None).1 !! 1 =
    Some (mkEvent (Some 43) "simulation.created" [("simulation_id", 123%Z)]
            INTERNAL None) /\
  executed
    (publish_event decimal S one_pending "simulation.created"
       [("simulation_id", 123%Z)] INTERNAL "events" None).1 = [].
Proof.
  assert (Hwf : no_dangling one_pending).
  { repeat constructor. by eexists. }
  split; [exact Hwf|].
  destruct (publish_event_raises_at_notify decimal S one_pending
              "simulation.created" [("simulation_id", 123%Z)] INTERNAL
              "events" None Hwf)
    as (Hraise & _ & Hrow & _ & _ & Hnone & _).
  split; [exact Hraise|]. split; [exact Hrow|exact Hnone].
Defined.

End BaseFacts.

(** ** Facts about the configuration *)

Module ConfigFacts.
Import Config.

#[local] Open Scope Z_scope.

Lemma Qle_bool_false (x y : Q) : Qle_bool x y = false <-> (y < x)%Q.
Proof.
  split.
  - intros H. apply Qnot_le_lt. intros Hle.
    apply Qle_bool_iff in Hle. congruence.
  - intros H. destruct (Qle_bool x y) eqn:E; [|done].
    apply Qle_bool_iff in E. by apply Qlt_not_le in H.
Qed.

Lemma n_workers_range v :
  int_ok n_workers_field v = false <-> v < 1 \/ 100 < v.
Proof.
  unfold int_ok. simpl. rewrite andb_false_iff, !Z.leb_gt. done.
Qed.

Lemma queue_maxsize_range v :
  int_ok queue_maxsize_field v = false <-> v < 0.
Proof.
  unfold int_ok. simpl. rewrite andb_false_iff, Z.leb_gt.
  split; [intros [Hlt|Hf]; [done|discriminate Hf] | by left].
Qed.

Lemma max_retries_range v :
  int_ok max_retries_field v = false <-> v < 0 \/ 10 < v.
Proof.
  unfold int_ok. simpl. rewrite andb_false_iff, !Z.leb_gt. done.
Qed.

Lemma poll_interval_range v :
  float_ok poll_interval_field v = false <-> (v < 1 # 10 \/ 60 < v)%Q.
Proof.
  unfold float_ok. simpl. rewrite andb_false_iff, !Qle_bool_false. done.
Qed.

Lemma shutdown_wait_timeout_range v :
  float_ok shutdown_wait_timeout_field v = false <-> (v < 0)%Q.
Proof.
  unfold float_ok. simpl. rewrite andb_false_iff, Qle_bool_false.
  split; [intros [Hlt|Hf]; [done|discriminate Hf] | by left].
Qed.

Lemma supplied_iff {A} (P R : A -> Prop) (v : option A) :
  (forall x, P x <-> R x) ->
  (exists x, v = Some x /\ P x) <-> (exists x, v = Some x /\ R x).
Proof. intros H. split; intros (x & Hx & HP); exists x; by rewrite ?H in *. Qed.

(** A field is rejected exactly when a value was supplied and breaks the
    bounds. *)
Lemma validate_int_rejects name f v :
  (exists e, validate_int name f v = inl e) <->
  exists x, v = Some x /\ int_ok f x = false.
Proof.
  unfold validate_int. destruct v as [x|].
  - destruct (int_ok f x) eqn:E.
    + split; [intros [e He]; discriminate He|].
      intros (y & Hy & Hbad). congruence.
    + split; eauto.
  - split; [intros [e He]; discriminate He|].
    intros (y & Hy & _). discriminate Hy.
Qed.

Lemma validate_float_rejects name f v :
  (exists e, validate_float name f v = inl e) <->
  exists x, v = Some x /\ float_ok f x = false.
Proof.
  unfold validate_float. destruct v as [x|].
  - destruct (float_ok f x) eqn:E.
    + split; [intros [e He]; discriminate He|].
      intros (y & Hy & Hbad). congruence.
    + split; eauto.
  - split; [intros [e He]; discriminate He|].
    intros (y & Hy & _). discriminate Hy.
Qed.

(** Construction raises exactly when some field is rejected. *)
Lemma raises_iff_rejected kw :
  raises (EventSystemConfig_new kw) <->
  (exists e, validate_int "n_workers" n_workers_field
               (kw_n_workers kw) = inl e) \/
  (exists e, validate_int "queue_maxsize" queue_maxsize_field
               (kw_queue_maxsize kw) = inl e) \/
  (exists e, validate_int "max_retries" max_retries_field
               (kw_max_retries kw) = inl e) \/
  (exists e, validate_float "poll_interval" poll_interval_field
               (kw_poll_interval kw) = inl e) \/
  (exists e, validate_float "shutdown_wait_timeout"
               shutdown_wait_timeout_field
               (kw_shutdown_wait_timeout kw) = inl e).
Proof.
  unfold raises, EventSystemConfig_new.
  destruct (validate_int "n_workers" _ _) as [e1|v1];
  destruct (validate_int "queue_maxsize" _ _) as [e2|v2];
  destruct (validate_int "max_retries" _ _) as [e3|v3];
  destruct (validate_float "poll_interval" _ _) as [e4|v4];
  destruct (validate_float "shutdown_wait_timeout" _ _) as [e5|v5];
  split; try (intros _; eauto 10; fail);
  first [ intros [fields H]; discriminate
        | intros [[e H]|[[e H]|[[e H]|[[e H]|[e H]]]]]; discriminate ].
Qed.

(** C7, amended. With nothing supplied the configuration is built with
    n_workers 5, queue_maxsize 1000, max_retries 3, poll_interval 1.0 and
    channel "events" (and a shutdown wait of 30 s, with completion awaited);
    construction raises a validation error exactly when a supplied value
    is out of range: n_workers outside 1..100, queue_maxsize negative,
    max_retries outside 0..10, poll_interval outside 0.1..60, or
    shutdown_wait_timeout negative; otherwise every field holds the
    supplied value, or its default. *)
Theorem EventSystemConfig_validation kw :
  EventSystemConfig_new no_kwargs =
    Valid (mkEventSystemConfig "events" 5 1000 3 1%Q 30%Q true) /\
  (raises (EventSystemConfig_new kw) <->
     out_of_range kw \/ negative_shutdown_wait kw) /\
  (forall c,
     EventSystemConfig_new kw = Valid c ->
     channel c = default "events" (kw_channel kw) /\
     n_workers c = default 5 (kw_n_workers kw) /\
     queue_maxsize c = default 1000 (kw_queue_maxsize kw) /\
     max_retries c = default 3 (kw_max_retries kw) /\
     poll_interval c = default 1%Q (kw_poll_interval kw) /\
     shutdown_wait_timeout c = default 30%Q (kw_shutdown_wait_timeout kw) /\
     shutdown_wait_for_completion c =
       default true (kw_shutdown_wait_for_completion kw)).
Proof.
  split; [reflexivity|]. split.
  - rewrite raises_iff_rejected.
    rewrite !validate_int_rejects, !validate_float_rejects.
    unfold out_of_range, negative_shutdown_wait.
    rewrite (supplied_iff _ _ _ n_workers_range).
    rewrite (supplied_iff _ _ _ queue_maxsize_range).
    rewrite (supplied_iff _ _ _ max_retries_range).
    rewrite (supplied_iff _ _ _ poll_interval_range).
    rewrite (supplied_iff _ _ _ shutdown_wait_timeout_range).
    tauto.
  - intros c. unfold EventSystemConfig_new, validate_int, validate_float.
    destruct kw as [ch [n|] [q|] [r|] [p|] [t|] w]; simpl;
      repeat match goal with
             | |- context [if ?b then _ else _] => destruct b
             end;
      intros H; inversion H; subst; simpl; done.
Qed.

(** C7 as stated fails: a negative [shutdown_wait_timeout] is rejected
    although none of n_workers, queue_maxsize, max_retries and
    poll_interval is out of range. *)
Lemma negative_shutdown_wait_is_rejected :
  ~ (raises (EventSystemConfig_new Scenario.negative_wait) <->
     out_of_range Scenario.negative_wait).
Proof.
  intros [H _].
  destruct H as [H|[H|[H|H]]].
  - exists ["shutdown_wait_timeout"%string]. reflexivity.
  - destruct H as (v & H & _). discriminate.
  - destruct H as (v & H & _). discriminate.
  - destruct H as (v & H & _). discriminate.
  - destruct H as (v & H & _). discriminate.
Qed.

Example eight_workers_accepted :
  EventSystemConfig_new Scenario.eight_workers =
    Valid (mkEventSystemConfig "events" 8 1000 3 (1 # 2)%Q 30%Q true).
Proof. reflexivity. Qed.

End ConfigFacts.

(** ** Facts about the system facade *)

Module SystemFacts.
Import System.

Section Facts.
Context {Router Exn World : Type}.
Context (perform : Call Router -> World -> World * (Exn + Value)).

#[local] Abbreviation State' := (System.State Router World).
#[local] Abbreviation EventSystem' := (System.EventSystem Router).

Implicit Types (st : State') (s : EventSystem').

(** Answer the next call of the method under evaluation both ways. *)
Ltac answer :=
  match goal with
  | |- context [perform ?c ?w] =>
      let w' := fresh "w" in
      let exn := fresh "exn" in
      let v := fresh "v" in
      let E := fresh "E" in
      destruct (perform c w) as [w' [exn|v]] eqn:E; simpl
  end.

(** A call that raised contradicts an environment that always returns. *)
Ltac returned H :=
  repeat match goal with
  | E : perform ?c ?w = (_, inl _) |- _ =>
      let v := fresh in
      destruct (H c w) as [v Hv]; rewrite E in Hv; discriminate Hv
  end.

(** The exception that left the method is the one some call raised. *)
Ltac blame :=
  let exn := fresh "exn" in
  let H := fresh "H" in
  intros exn H; injection H as <-;
  match goal with
  | E : perform ?c ?w = (_, inl _) |- _ =>
      exists c, w; split; [set_solver | by rewrite E]
  end.

Lemma drop_own_length {A} (l k : list A) : drop (length l) (l ++ k) = k.
Proof. by rewrite drop_app_length. Qed.

(** *** Shutdown *)


(** What [stop] does with a listener and a pool in place, whatever the
    environment answers. *)
Lemma stop_started st l p wfc timeout :
  listener (self st) = Some l ->
  worker_pool (self st) = Some p ->
  self (stop perform wfc timeout st).1 = self st /\
  (exists calls,
     trace (stop perform wfc timeout st).1 = trace st ++ calls /\
     calls `prefix_of` stop_order (self st) l p wfc timeout /\
     (forall u, (stop perform wfc timeout st).2 = inr u ->
                calls = stop_order (self st) l p wfc timeout) /\
     (forall exn, (stop perform wfc timeout st).2 = inl exn ->
                  exists c w, c ∈ calls /\ (perform c w).2 = inl exn)) /\
  (always_returns perform -> (stop perform wfc timeout st).2 = inr tt).
Proof.
  intros Hl Hp. destruct st as [s w tr]. simpl in *.
  unfold stop, bind, get_self, call, ret, stop_order. simpl.
  rewrite Hl. simpl.
  answer; rewrite ?Hp; simpl.
  { split; [done|]. split.
    - eexists. split; [done|]. split; [by eexists|].
      split; [discriminate|blame].
    - intros H. returned H. }
  destruct wfc; simpl; rewrite ?Hp; simpl.
  - answer; rewrite ?Hp; simpl.
    { split; [done|]. split.
      - eexists. split; [by rewrite <- !app_assoc|].
        split; [by eexists|]. split; [discriminate|blame].
      - intros H. returned H. }
    answer.
    { split; [done|]. split.
      - eexists. split; [by rewrite <- !app_assoc|].
        split; [by eexists|]. split; [discriminate|blame].
      - intros H. returned H. }
    answer.
    { split; [done|]. split.
      - eexists. split; [by rewrite <- !app_assoc|].
        split; [by eexists|]. split; [discriminate|blame].
      - intros H. returned H. }
    split; [done|]. split; [|done].
    eexists. split; [by rewrite <- !app_assoc|]. split; [by eexists []|].
    split; [done|discriminate].
  - answer.
    { split; [done|]. split.
      - eexists. split; [by rewrite <- !app_assoc|].
        split; [by eexists|]. split; [discriminate|blame].
      - intros H. returned H. }
    answer.
    { split; [done|]. split.
      - eexists. split; [by rewrite <- !app_assoc|].
        split; [by eexists|]. split; [discriminate|blame].
      - intros H. returned H. }
    split; [done|]. split; [|done].
    eexists. split; [by rewrite <- !app_assoc|]. split; [by eexists []|].
    split; [done|discriminate].
Qed.

(** *** Startup *)

Ltac in_order :=
  unfold start_order, built_listener, built_pool;
  repeat first [ apply sublist_nil_l | apply sublist_skip
               | apply sublist_cons ].

(** What [start] does, whatever state the facade is in and whatever the
    environment answers. *)
Lemma start_any st :
  (exists calls session conn,
     trace (start perform st).1 = trace st ++ calls /\
     calls `sublist_of` start_order (self st) session conn /\
     (forall u, (start perform st).2 = inr u ->
        calls = start_order (self st) session conn /\
        self (start perform st).1 =
          set_worker_pool (Some (built_pool (self st)))
            (set_listener (Some (built_listener (self st) conn))
               (set__connection conn (self st)))) /\
     (forall exn, (start perform st).2 = inl exn ->
                  exists c w, c ∈ calls /\ (perform c w).2 = inl exn)) /\
  (always_returns perform -> (start perform st).2 = inr tt).
Proof.
  destruct st as [s w tr].
  unfold start, async_with_session, finally, bind, get_self, set_self, call,
    ret.
  simpl.
  (* entering the session *)
  answer.
  { split; [|intros H; returned H].
    exists [session_enter (session_manager s)], VNone, VNone.
    split; [done|]. split; [in_order|]. split; [discriminate|blame]. }
  (* creating the schema, committing, leaving the session *)
  answer.
  { answer.
    - split; [|intros H; returned H].
      eexists _, v, VNone.
      split; [by rewrite <- !app_assoc|]. split; [in_order|]. split; [discriminate|blame].
    - split; [|intros H; returned H].
      eexists _, v, VNone.
      split; [by rewrite <- !app_assoc|]. split; [in_order|]. split; [discriminate|blame]. }
  answer.
  { answer.
    - split; [|intros H; returned H].
      eexists _, v, VNone.
      split; [by rewrite <- !app_assoc|]. split; [in_order|]. split; [discriminate|blame].
    - split; [|intros H; returned H].
      eexists _, v, VNone.
      split; [by rewrite <- !app_assoc|]. split; [in_order|]. split; [discriminate|blame]. }
  answer.
  { split; [|intros H; returned H].
    eexists _, v, VNone.
    split; [by rewrite <- !app_assoc|]. split; [in_order|]. split; [discriminate|blame]. }
  (* opening the listener connection *)
  answer.
  { split; [|intros H; returned H].
    eexists _, v, VNone.
    split; [by rewrite <- !app_assoc|]. split; [in_order|]. split; [discriminate|blame]. }
  (* starting the listener *)
  answer.
  { split; [|intros H; returned H].
    eexists _, v, v3.
    split; [by rewrite <- !app_assoc|]. split; [in_order|]. split; [discriminate|blame]. }
  (* starting the pool *)
  answer.
  { split; [|intros H; returned H].
    eexists _, v, v3.
    split; [by rewrite <- !app_assoc|]. split; [in_order|]. split; [discriminate|blame]. }
  split; [|done].
  eexists _, v, v3.
  split; [by rewrite <- !app_assoc|]. split; [in_order|].
  split; [done|discriminate].
Qed.

(** A run of [start] that returns leaves a listener and a pool in
    place. *)
Lemma start_returns_started st u :
  (start perform st).2 = inr u -> started (self (start perform st).1).
Proof.
  intros Hu.
  destruct (start_any st) as [(calls & session & conn & _ & _ & Hret & _) _].
  destruct (Hret u Hu) as [_ ->]. by eexists _, _.
Qed.

Lemma calls_of_trace {A} (m : M Router Exn World A) st calls :
  trace (m st).1 = trace st ++ calls -> calls_of m st = calls.
Proof. intros H. unfold calls_of. rewrite H. apply drop_own_length. Qed.




(** C4, amended. Neither method has a guard. On a facade that has been
    started, [start] raises only what one of its calls raises; it goes
    through the same calls as on a facade that has not, and when they return
    it returns, leaving the facade with a newly built listener and pool.
    [stop] leaves the attributes of the facade as they were, so a second
    [stop] repeats the calls of the first on the same listener and pool; it
    changes nothing where those calls change nothing. *)
Theorem start_and_stop_have_no_guard st l p
    (wait_for_completion : bool) (timeout : option Q) :
  listener (self st) = Some l ->
  worker_pool (self st) = Some p ->
  (forall exn,
     (start perform st).2 = inl exn ->
     exists c w,
       c ∈ calls_of (start perform) st /\ (perform c w).2 = inl exn) /\
  (always_returns perform ->
     (start perform st).2 = inr tt /\
     exists session conn,
       calls_of (start perform) st = start_order (self st) session conn /\
       listener (self (start perform st).1) =
         Some (built_listener (self st) conn) /\
       worker_pool (self (start perform st).1) =
         Some (built_pool (self st))) /\
  (forall session conn,
     start_order (self st) session conn =
     start_order
       (set_worker_pool None (set_listener None
          (set__connection VNone (self st)))) session conn) /\
  self (stop perform wait_for_completion timeout st).1 = self st /\
  (forall u,
     (stop perform wait_for_completion timeout st).2 = inr u ->
     forall u',
       (stop perform wait_for_completion timeout
          (stop perform wait_for_completion timeout st).1).2 = inr u' ->
       calls_of (stop perform wait_for_completion timeout)
         (stop perform wait_for_completion timeout st).1 =
       stop_order (self st) l p wait_for_completion timeout) /\
  ((forall c,
      c ∈ stop_order (self st) l p wait_for_completion timeout ->
      perform c (world st) = (world st, inr VNone)) ->
   world (stop perform wait_for_completion timeout st).1 = world st /\
   (stop perform wait_for_completion timeout st).2 = inr tt).
Proof.
  intros Hl Hp. split_and!.
  - destruct (start_any st)
      as [(calls & session & conn & Ht & _ & _ & Hblame) _].
    by rewrite (calls_of_trace _ _ _ Ht).
  - intros Hal.
    destruct (start_any st)
      as [(calls & session & conn & Ht & Hsub & Hret & _) Hreturns].
    split; [by apply Hreturns|].
    destruct (Hret tt (Hreturns Hal)) as [-> Hself].
    exists session, conn. rewrite (calls_of_trace _ _ _ Ht), Hself. done.
  - done.
  - by destruct (stop_started st l p wait_for_completion timeout Hl Hp)
      as (? & _).
  - intros u Hu u' Hu'.
    destruct (stop_started st l p wait_for_completion timeout Hl Hp)
      as (Hself & _ & _).
    set (st' := (stop perform wait_for_completion timeout st).1) in *.
    assert (Hl' : listener (self st') = Some l) by by rewrite Hself.
    assert (Hp' : worker_pool (self st') = Some p) by by rewrite Hself.
    destruct (stop_started st' l p wait_for_completion timeout Hl' Hp')
      as (_ & (calls & Ht & _ & Hret & _) & _).
    rewrite (calls_of_trace _ _ _ Ht), (Hret u' Hu'). by rewrite Hself.
  - intros Hnoop. destruct st as [s w tr]. simpl in *.
    unfold stop, bind, get_self, call, ret. simpl. rewrite Hl. simpl.
    assert (Hin : forall c, c ∈ stop_order s l p wait_for_completion timeout ->
                            perform c w = (w, inr VNone)) by done.
    unfold stop_order in Hin.
    rewrite (Hin (listener_stop l)) by set_solver.
    simpl. rewrite ?Hp. simpl.
    destruct wait_for_completion; simpl in *.
    + rewrite (Hin (pool_wait_until_empty p timeout)) by set_solver.
      simpl. rewrite ?Hp. simpl.
      rewrite (Hin (pool_stop p)) by set_solver.
      simpl.
      by rewrite (Hin (session_manager_close (session_manager s)))
        by set_solver.
    + rewrite ?Hp. simpl.
      rewrite (Hin (pool_stop p)) by set_solver.
      simpl.
      by rewrite (Hin (session_manager_close (session_manager s)))
        by set_solver.
Qed.

(** C10. On a facade that has only been constructed, [get_worker_count]
    returns 0 without calling anything, as it does whenever there is no
    pool; [get_queue_size] finds the queue the constructor built, with the
    configured capacity, asks it for its size and hands back its answer. *)
Theorem accessors_before_start (router : Router)
    (settings : Config.Settings) (w : World) (tr : list (Call Router)) :
  get_worker_count perform (mkState (__init__ router settings) w tr) =
    (mkState (__init__ router settings) w tr, inr (VInt 0)) /\
  (forall st,
     worker_pool (self st) = None ->
     get_worker_count perform st = (st, inr (VInt 0))) /\
  event_queue (__init__ router settings) =
    mkEventQueue mkEventRepository
      (mkSessionManager (Config.settings_database settings))
      (Config.queue_maxsize (Config.event_system settings)) /\
  get_queue_size perform (mkState (__init__ router settings) w tr) =
    (mkState (__init__ router settings)
       (perform (queue_qsize (event_queue (__init__ router settings))) w).1
       (tr ++ [queue_qsize (event_queue (__init__ router settings))]),
     (perform (queue_qsize (event_queue (__init__ router settings))) w).2) /\
  (always_returns perform ->
   exists v,
     (get_queue_size perform (mkState (__init__ router settings) w tr)).2 =
       inr v).
Proof.
  split_and!.
  - reflexivity.
  - intros [s w' tr'] Hp. simpl in Hp.
    unfold get_worker_count, bind, get_self, ret. simpl. by rewrite Hp.
  - reflexivity.
  - unfold get_queue_size, bind, get_self, call. simpl.
    by destruct (perform _ w) as [w' [exn|v]].
  - intros Hal. unfold get_queue_size, bind, get_self, call. simpl.
    destruct (Hal (queue_qsize (event_queue (__init__ router settings))) w)
      as [v Hv].
    exists v. simpl in *.
    by destruct (perform _ w) as [w' [exn|v']].
Qed.

End Facts.

(** *** Evaluations *)

Import Scenario.


(** On a database that already has the schema, [start] goes through all
    its calls and leaves the set of schemas as it was. *)
Example start_keeps_existing_schema :
  calls_of (start respond) at_rest_quiet =
    start_order constructed (VRef 0) (VRef 1) /\
  schemas (world running_quiet) = schemas quiet.
Proof. split; reflexivity. Qed.

Example accessors_on_constructed :
  get_worker_count respond at_rest_quiet = (at_rest_quiet, inr (VInt 0)) /\
  (get_queue_size respond at_rest_quiet).2 = inr (VInt 0).
Proof. split; reflexivity. Qed.

(** C4 as stated fails: after a successful [start], a second [start]
    returns as well, and the process then has two listeners and twice the
    workers. *)
Lemma second_start_returns :
  (start respond at_rest_quiet).2 = inr tt /\
  ~ (exists exn, (start respond running_quiet).2 = inl exn) /\
  listeners (world (start respond running_quiet).1) = 2 /\
  workers (world (start respond running_quiet).1) = 10%Z.
Proof.
  split_and!; [reflexivity| |reflexivity|reflexivity].
  intros [exn H]. vm_compute in H. discriminate H.
Qed.


(** Stopping the facade started on the quiet database leaves its
    attributes, listener and pool included, as they were. *)
Lemma start_and_stop_have_no_guard_witness :
  listener (self running_quiet) =
    Some (built_listener constructed (VRef 1)) /\
  worker_pool (self running_quiet) = Some (built_pool constructed) /\
  self (stop respond true (Some 30%Q) running_quiet).1 =
    self running_quiet.
Proof.
  split; [reflexivity|]. split; [reflexivity|].
  destruct (start_and_stop_have_no_guard respond running_quiet
              (built_listener constructed (VRef 1)) (built_pool constructed)
              true (Some 30%Q) eq_refl eq_refl)
    as (_ & _ & _ & Hself & _).
  exact Hself.
Defined.

End SystemFacts.

(** ** Further laws of the router *)

Module RoutingLaws.
Import Routing RoutingFacts.

Section Laws.
Context {AsyncSession Payload Exn Any : Type}.

#[local] Abbreviation Endpoint' :=
  (Routing.Endpoint AsyncSession Payload Exn Any).
#[local] Abbreviation EventRouter' :=
  (Routing.EventRouter AsyncSession Payload Exn Any).
#[local] Abbreviation DBEvent' := (Routing.DBEvent Payload).

Implicit Types (r : EventRouter') (ev : DBEvent') (session : AsyncSession).
Implicit Types (handlers : list (string * Endpoint')) (endpoint : Endpoint').

(** *** Joining *)

(** Joining non-empty strings gives the empty string only for no strings
    at all. *)
Lemma join_empty_iff (sep : string) (parts : list string) :
  Forall (fun s => s <> "") parts ->
  Py.join sep parts = "" <-> parts = [].
Proof.
  intros Hne. destruct parts as [|p ps]; [done|].
  split; [|discriminate]. intros H. exfalso.
  apply Forall_cons in Hne as [Hp _]. apply Hp.
  destruct ps; simpl in H; [done|]. by destruct p.
Qed.

(** A joined group can be spliced into the list it closes. *)
Lemma join_splice (sep : string) (parts1 parts2 : list string) :
  parts2 <> [] ->
  Py.join sep (parts1 ++ [Py.join sep parts2]) =
  Py.join sep (parts1 ++ parts2).
Proof.
  intros Hne. induction parts1 as [|p ps IH]; simpl.
  - done.
  - destruct (ps ++ [Py.join sep parts2]) eqn:E1.
    { by destruct ps. }
    destruct (ps ++ parts2) eqn:E2.
    { by destruct ps, parts2. }
    by rewrite IH.
Qed.

Lemma filter_nonempty_Forall (parts : list string) :
  Forall (fun s => s <> "") (filter (fun s => s <> "") parts).
Proof. apply Forall_forall. intros s Hs. by apply list_elem_of_filter in Hs as [? _]. Qed.

Lemma dotted_list_empty_iff (parts : list string) :
  dotted_list parts = "" <-> Forall (fun s => s = "") parts.
Proof.
  unfold dotted_list. rewrite join_empty_iff by apply filter_nonempty_Forall.
  induction parts as [|p ps IH].
  - by rewrite filter_nil.
  - rewrite filter_cons. destruct (decide (p <> "")) as [Hp|Hp].
    + split; [discriminate|]. intros H. by apply Forall_cons in H as [? _].
    + apply dec_stable in Hp. rewrite IH. split.
      * intros H. by apply Forall_cons.
      * intros H. by apply Forall_cons in H as [_ ?].
Qed.

(** A dotted path used as the last part of a longer one gives the dotted
    path of all the parts. *)
Lemma dotted_list_nested (outer inner : list string) :
  dotted_list (outer ++ [dotted_list inner]) = dotted_list (outer ++ inner).
Proof.
  unfold dotted_list at 1 3. rewrite !filter_app.
  destruct (decide (dotted_list inner = "")) as [He|Hne].
  - rewrite He. rewrite filter_cons, filter_nil.
    rewrite decide_False by (intros H; by apply H).
    apply dotted_list_empty_iff in He.
    assert (filter (fun s => s <> "") inner = []) as ->; [|done].
    induction inner as [|p ps IH]; [done|].
    apply Forall_cons in He as [-> He]. rewrite filter_cons.
    rewrite decide_False by (intros H; by apply H). by apply IH.
  - rewrite filter_cons, filter_nil. rewrite decide_True by done.
    unfold dotted_list. apply join_splice.
    intros Hnil. apply Hne. unfold dotted_list. by rewrite Hnil.
Qed.

Lemma dotted_is_dotted_list (extra rprefix path : string) :
  dotted extra rprefix path = dotted_list [extra; rprefix; path].
Proof. done. Qed.

Lemma append_assoc (s1 s2 s3 : string) :
  (s1 +:+ s2) +:+ s3 = s1 +:+ s2 +:+ s3.
Proof.
  induction s1 as [|a s1 IH]; [done|].
  change (String a ((s1 +:+ s2) +:+ s3) = String a (s1 +:+ s2 +:+ s3)).
  by rewrite IH.
Qed.

Lemma append_grows (s1 s2 : string) : s2 <> "" -> s1 +:+ s2 <> s1.
Proof.
  intros Hne H. apply (f_equal String.length) in H.
  rewrite length_append in H. destruct s2; [done|]. simpl in H. lia.
Qed.

Lemma join_snoc (sep : string) (parts : list string) (p : string) :
  parts <> [] ->
  Py.join sep (parts ++ [p]) = Py.join sep parts +:+ sep +:+ p.
Proof.
  intros Hne. induction parts as [|q qs IH]; [done|].
  destruct qs as [|q' qs]; [done|].
  change (Py.join sep ((q :: q' :: qs) ++ [p])) with
    (q +:+ sep +:+ Py.join sep ((q' :: qs) ++ [p])).
  rewrite IH by done.
  change (Py.join sep (q :: q' :: qs)) with
    (q +:+ sep +:+ Py.join sep (q' :: qs)).
  by rewrite !append_assoc.
Qed.

(** Under fixed prefixes, different paths are mounted under different
    paths. *)
Lemma dotted_inj (extra rprefix path1 path2 : string) :
  dotted extra rprefix path1 = dotted extra rprefix path2 -> path1 = path2.
Proof.
  unfold dotted.
  change [extra; rprefix; path1] with ([extra; rprefix] ++ [path1]).
  change [extra; rprefix; path2] with ([extra; rprefix] ++ [path2]).
  rewrite !filter_app.
  set (pre := filter (fun s => s <> "") [extra; rprefix]).
  assert (Hlast : forall p,
    filter (fun s => s <> "") [p] = if decide (p = "") then [] else [p]).
  { intros p. rewrite filter_cons, filter_nil.
    destruct (decide (p = "")) as [->|Hp].
    - by rewrite decide_False by (intros H; by apply H).
    - by rewrite decide_True. }
  rewrite !Hlast.
  destruct (decide (path1 = "")) as [->|H1],
           (decide (path2 = "")) as [->|H2]; try done.
  - rewrite app_nil_r. destruct pre as [|q qs] eqn:E; [done|].
    rewrite join_snoc by done. intros H. symmetry in H.
    apply append_grows in H; [done|]. by destruct path2.
  - rewrite app_nil_r. destruct pre as [|q qs] eqn:E; [done|].
    rewrite join_snoc by done. intros H.
    apply append_grows in H; [done|]. by destruct path1.
  - destruct pre as [|q qs] eqn:E; [done|].
    rewrite !join_snoc by done. intros H.
    apply String.app_inj in H. by apply String.app_inj in H.
Qed.

(** *** Registering *)

(** X6. Registering a route changes the dispatch of no event of another
    type, and of no event at all when the path was already registered: the
    new route only ever serves events of a type nothing served before. *)
Theorem add_event_route_serves_new_types_only
    r (path : string) endpoint session ev :
  type ev <> path \/ routed (event_handlers r) path ->
  handle (add_event_route path endpoint r) session ev = handle r session ev.
Proof.
  intros H. rewrite !handle_first_route. simpl.
  destruct (first_route (event_handlers r) (type ev)) as [e|] eqn:E.
  - by rewrite (first_route_app_l _ _ _ _ E).
  - rewrite (first_route_app_r _ _ _ E). simpl.
    destruct (String.eqb_spec path (type ev)) as [Heq|Hne]; [|done].
    exfalso. destruct H as [H|H]; [by apply H|].
    apply first_route_None in E. apply E. by rewrite <- Heq.
Qed.

(** *** Mounting *)

(** With too little fuel the loop over another router's routes is cut
    short. *)
Lemma include_router_loop_short (extra : string) (self router : loc) :
  self <> router ->
  forall fuel i (h : gmap loc EventRouter') r c,
    h !! self = Some r ->
    h !! router = Some c ->
    fuel <= length (event_handlers c) - i ->
    include_router_loop fuel self router extra i h = Py.OutOfFuel.
Proof.
  intros Hne. induction fuel as [|fuel IH]; intros i h r c Hs Hr Hfuel.
  { done. }
  simpl. rewrite Hr. destruct c as [cprefix chandlers]. simpl in *.
  destruct (lookup_lt_is_Some_2 chandlers i) as [[path endpoint] Hi]; [lia|].
  rewrite Hi. unfold add_event_route_at. rewrite Hs.
  eapply (IH (S i) _ _ {| prefix := cprefix; event_handlers := chandlers |}).
  - by rewrite lookup_insert_eq.
  - by rewrite lookup_insert_ne.
  - simpl. lia.
Qed.

(** X1. A completed [include_router] of another router has walked every
    route of the child; it leaves the child and every router other than the
    parent as they were, keeps the parent's prefix and the parent's former
    routes at their positions, and adds as many routes as the child has. *)
Theorem include_router_changes_parent_only
    (h h' : gmap loc EventRouter') (self router : loc) (extra : string)
    (parent child : EventRouter') (fuel : nat) :
  self <> router ->
  h !! self = Some parent ->
  h !! router = Some child ->
  include_router fuel self router extra h = Py.Done h' ->
  length (event_handlers child) < fuel /\
  (forall l, l <> self -> h' !! l = h !! l) /\
  exists parent',
    h' !! self = Some parent' /\
    prefix parent' = prefix parent /\
    take (length (event_handlers parent)) (event_handlers parent') =
      event_handlers parent /\
    length (event_handlers parent') =
      length (event_handlers parent) + length (event_handlers child).
Proof.
  intros Hne Hs Hr Hdone.
  assert (Hfuel : length (event_handlers child) < fuel).
  { destruct (decide (length (event_handlers child) < fuel)); [done|].
    unfold include_router in Hdone.
    rewrite (include_router_loop_short extra self router Hne
               fuel 0 h parent child Hs Hr) in Hdone by lia.
    discriminate. }
  split; [done|].
  unfold include_router in Hdone.
  rewrite (include_router_loop_distinct extra self router Hne
             fuel 0 h parent child Hs Hr) in Hdone by lia.
  injection Hdone as <-. split.
  - intros l Hl. by rewrite lookup_insert_ne.
  - eexists. rewrite lookup_insert_eq. split; [done|]. simpl.
    split; [done|]. split.
    + by rewrite take_app_length.
    + by rewrite length_app, length_map, drop_0.
Qed.

(** X2. Mounting a router that has no routes returns at once and changes
    nothing, whatever the router it is mounted into, itself included. *)
Theorem include_router_without_routes
    (h : gmap loc EventRouter') (self router : loc) (extra : string)
    (child : EventRouter') (fuel : nat) :
  h !! router = Some child ->
  event_handlers child = [] ->
  include_router (S fuel) self router extra h = Py.Done h.
Proof.
  intros Hr Hnil. unfold include_router. simpl. rewrite Hr.
  destruct child as [cprefix chandlers]. simpl in Hnil. by subst.
Qed.

(** X3. Mounting composes: after a child is mounted into a parent under
    one extra prefix and the parent into a grandparent under another, the
    grandparent has gained the parent's own routes and then the child's,
    each of the latter under the dot-joined non-empty strings among the
    outer extra prefix, the parent's prefix, the inner extra prefix, the
    child's prefix and the route's path. *)
Theorem include_router_nested
    (h : gmap loc EventRouter') (top mid low : loc) (outer inner : string)
    (grandparent parent child : EventRouter') (fuel1 fuel2 : nat) :
  top <> mid -> mid <> low -> top <> low ->
  h !! top = Some grandparent ->
  h !! mid = Some parent ->
  h !! low = Some child ->
  length (event_handlers child) < fuel1 ->
  length (event_handlers parent) + length (event_handlers child) < fuel2 ->
  exists h1 h2 grandparent',
    include_router fuel1 mid low inner h = Py.Done h1 /\
    include_router fuel2 top mid outer h1 = Py.Done h2 /\
    h2 !! top = Some grandparent' /\
    h2 !! low = Some child /\
    event_handlers grandparent' =
      event_handlers grandparent ++ mounted outer parent ++
      map (fun route =>
             (dotted_list [outer; prefix parent; inner; prefix child;
                           fst route],
              snd route))
          (event_handlers child).
Proof.
  intros Htm Hml Htl Ht Hm Hl Hf1 Hf2.
  eexists _, _, _. split.
  { unfold include_router.
    by rewrite (include_router_loop_distinct inner mid low Hml
                  fuel1 0 h parent child Hm Hl) by lia. }
  split.
  { unfold include_router.
    erewrite (include_router_loop_distinct outer top mid Htm fuel2 0 _
                grandparent).
    - done.
    - by rewrite lookup_insert_ne.
    - by rewrite lookup_insert_eq.
    - simpl. rewrite length_app, length_map, drop_0. lia. }
  rewrite lookup_insert_eq. split; [done|].
  split.
  { rewrite lookup_insert_ne by done. by rewrite lookup_insert_ne. }
  simpl. rewrite !drop_0, map_app. unfold mounted. f_equal. f_equal.
  rewrite map_map. apply map_ext. intros [path endpoint]. simpl.
  f_equal. rewrite !dotted_is_dotted_list.
  apply (dotted_list_nested [outer; prefix parent]
           [inner; prefix child; path]).
Qed.

(** The routes a child contributes are looked up as the child's own are,
    under the translated name. *)
Lemma first_route_mounted (extra : string) (child : EventRouter')
    (ty : string) :
  first_route (mounted extra child) (dotted extra (prefix child) ty) =
  first_route (event_handlers child) ty.
Proof.
  unfold mounted. induction (event_handlers child) as [|[path e] rest IH];
    simpl; [done|].
  destruct (String.eqb_spec path ty) as [->|Hne].
  - by rewrite String.eqb_refl.
  - destruct (String.eqb_spec (dotted extra (prefix child) path)
                (dotted extra (prefix child) ty)) as [Heq|_]; [|done].
    by apply dotted_inj in Heq.
Qed.

(** X4. Mounting keeps the child's dispatch under the translated names: an
    event whose type is the mounted form of [ty], and which no route of the
    parent's own serves, makes the parent await exactly the endpoint the
    child awaits for type [ty]. *)
Theorem mounted_routes_dispatch_as_child
    (parent child : EventRouter') (extra ty : string)
    (payload : Payload) session :
  ~ routed (event_handlers parent) (dotted extra (prefix child) ty) ->
  invoked
    (handle {| prefix := prefix parent;
               event_handlers := event_handlers parent ++
                                 mounted extra child |}
       session (mkDBEvent (dotted extra (prefix child) ty) payload)) =
  invoked (handle child session (mkDBEvent ty payload)).
Proof.
  intros Hn. rewrite !handle_first_route. simpl.
  apply first_route_None in Hn.
  rewrite (first_route_app_r _ _ _ Hn), first_route_mounted.
  by destruct (first_route (event_handlers child) ty).
Qed.

Lemma first_route_app_twice handlers1 handlers2 ty :
  first_route (handlers1 ++ handlers2 ++ handlers2) ty =
  first_route (handlers1 ++ handlers2) ty.
Proof.
  destruct (first_route handlers1 ty) as [e|] eqn:E1.
  { by rewrite !(first_route_app_l _ _ _ _ E1). }
  rewrite !(first_route_app_r _ _ _ E1).
  destruct (first_route handlers2 ty) as [e|] eqn:E2.
  - by rewrite (first_route_app_l _ _ _ _ E2).
  - by rewrite (first_route_app_r _ _ _ E2).
Qed.

(** X5. Mounting the same child a second time under the same extra prefix
    doubles its routes in the parent and changes the dispatch of no
    event. *)
Theorem include_router_twice_dispatches_as_once
    (h : gmap loc EventRouter') (self router : loc) (extra : string)
    (parent child : EventRouter') (fuel : nat) :
  self <> router ->
  h !! self = Some parent ->
  h !! router = Some child ->
  length (event_handlers child) < fuel ->
  exists h1 h2 once twice,
    include_router fuel self router extra h = Py.Done h1 /\
    include_router fuel self router extra h1 = Py.Done h2 /\
    h1 !! self = Some once /\
    h2 !! self = Some twice /\
    event_handlers twice =
      event_handlers once ++ mounted extra child /\
    forall session ev, handle twice session ev = handle once session ev.
Proof.
  intros Hne Hs Hr Hfuel. eexists _, _, _, _. split.
  { unfold include_router.
    by rewrite (include_router_loop_distinct extra self router Hne
                  fuel 0 h parent child Hs Hr) by lia. }
  split.
  { unfold include_router.
    erewrite (include_router_loop_distinct extra self router Hne fuel 0 _
                _ child).
    - done.
    - by rewrite lookup_insert_eq.
    - by rewrite lookup_insert_ne.
    - lia. }
  split; [by rewrite lookup_insert_eq|].
  split; [by rewrite insert_insert_eq, lookup_insert_eq|].
  simpl. rewrite !drop_0. split; [done|].
  intros session ev. rewrite !handle_first_route. simpl.
  by rewrite <- app_assoc, first_route_app_twice.
Qed.

(** X7. A mounted path is empty only when the extra prefix, the child's
    prefix and the route's path all are; and a child without a prefix,
    mounted without an extra prefix, contributes its routes as they
    are. *)
Theorem mounting_without_prefixes (extra rprefix path : string)
    (child : EventRouter') :
  (dotted extra rprefix path = "" <->
     extra = "" /\ rprefix = "" /\ path = "") /\
  (prefix child = "" -> mounted "" child = event_handlers child).
Proof.
  split.
  - rewrite dotted_is_dotted_list, dotted_list_empty_iff.
    rewrite !Forall_cons. pose proof (Forall_nil (fun s : string => s = "")).
    tauto.
  - intros Hp. unfold mounted. rewrite Hp.
    induction (event_handlers child) as [|[p e] rest IH]; simpl; [done|].
    rewrite IH. f_equal. f_equal. unfold dotted.
    rewrite !filter_cons, filter_nil.
    rewrite !(decide_False (P := "" <> "")) by (intros H; by apply H).
    by destruct (decide (p <> "")) as [?|Hn%dec_stable].
Qed.

End Laws.

(** *** Evaluations *)

Import Scenario.

(** A third handler on a path that already has two changes nothing. *)
Lemma add_event_route_serves_new_types_only_witness :
  (type (event "a.b") <> "a.b" \/
   routed (event_handlers duplicate_router) "a.b") /\
  handle (add_event_route "a.b" (records "third") duplicate_router) []
    (event "a.b") =
  mkHandled ["first"] [records "first"] (inr true).
Proof.
  assert (H : type (event "a.b") <> "a.b" \/
              routed (event_handlers duplicate_router) "a.b").
  { right. exists (records "first"). left. }
  split; [exact H|].
  rewrite (add_event_route_serves_new_types_only duplicate_router "a.b"
             (records "third") [] (event "a.b") H).
  reflexivity.
Defined.

(** Mounting the child at 1 into the parent at 0 leaves the child as it
    was. *)
Lemma include_router_changes_parent_only_witness :
  0 <> 1 /\
  two_routers !! 0 = Some parent_router /\
  two_routers !! 1 = Some child_router /\
  (exists h',
     include_router 2 0 1 "parent" two_routers = Py.Done h' /\
     h' !! 1 = Some child_router).
Proof.
  split; [lia|]. split; [reflexivity|]. split; [reflexivity|].
  eexists. split; [reflexivity|].
  destruct (include_router_changes_parent_only two_routers _ 0 1 "parent"
              parent_router child_router 2
              ltac:(lia) eq_refl eq_refl eq_refl)
    as (_ & Hframe & _).
  rewrite Hframe by lia. reflexivity.
Defined.

(** A router without routes mounted into itself. *)
Lemma include_router_without_routes_witness :
  lone_router !! 0 = Some (__init__ "unused") /\
  event_handlers (__init__ "unused" : Router) = [] /\
  include_router 1 0 0 "extra" lone_router = Py.Done lone_router.
Proof.
  split; [reflexivity|]. split; [reflexivity|].
  exact (include_router_without_routes lone_router 0 0 "extra"
           (__init__ "unused") 0 eq_refl eq_refl).
Defined.

(** The child into the parent under "parent", then the parent into the
    root, whose own prefix "api" plays no part, under "v1". *)
Lemma include_router_nested_witness :
  2 <> 0 /\ 0 <> 1 /\ 2 <> 1 /\
  three_routers !! 2 = Some root_router /\
  three_routers !! 0 = Some parent_router /\
  three_routers !! 1 = Some child_router /\
  length (event_handlers child_router) < 2 /\
  length (event_handlers parent_router) +
    length (event_handlers child_router) < 3 /\
  exists h1 h2 root',
    include_router 2 0 1 "parent" three_routers = Py.Done h1 /\
    include_router 3 2 0 "v1" h1 = Py.Done h2 /\
    h2 !! 2 = Some root' /\
    event_handlers root' =
      [ ("health", records "health handler");
        ("v1.ping", records "ping handler");
        ("v1.parent.child.leaf", records "leaf handler") ].
Proof.
  split; [lia|]. split; [lia|]. split; [lia|].
  split; [reflexivity|]. split; [reflexivity|]. split; [reflexivity|].
  split; [simpl; lia|]. split; [simpl; lia|].
  destruct (include_router_nested three_routers 2 0 1 "v1" "parent"
              root_router parent_router child_router 2 3
              ltac:(lia) ltac:(lia) ltac:(lia) eq_refl eq_refl eq_refl
              ltac:(simpl; lia) ltac:(simpl; lia))
    as (h1 & h2 & root' & H1 & H2 & Hroot & _ & Hroutes).
  exists h1, h2, root'. split; [exact H1|]. split; [exact H2|].
  split; [exact Hroot|]. rewrite Hroutes. reflexivity.
Defined.

(** An event of type "parent.child.leaf" on the parent runs the handler
    the child runs for "leaf". *)
Lemma mounted_routes_dispatch_as_child_witness :
  ~ routed (event_handlers parent_router)
      (dotted "parent" (prefix child_router) "leaf") /\
  invoked
    (handle {| prefix := prefix parent_router;
               event_handlers := event_handlers parent_router ++
                                 mounted "parent" child_router |}
       [] (mkDBEvent "parent.child.leaf" tt)) =
  [records "leaf handler"].
Proof.
  assert (H : ~ routed (event_handlers parent_router)
                (dotted "parent" (prefix child_router) "leaf")).
  { intros [e He]. apply list_elem_of_singleton in He. discriminate He. }
  split; [exact H|].
  exact (mounted_routes_dispatch_as_child parent_router child_router
           "parent" "leaf" tt [] H).
Defined.

(** Mounting the child twice: four routes, the same dispatch. *)
Lemma include_router_twice_dispatches_as_once_witness :
  0 <> 1 /\
  two_routers !! 0 = Some parent_router /\
  two_routers !! 1 = Some child_router /\
  length (event_handlers child_router) < 2 /\
  exists h1 h2 twice,
    include_router 2 0 1 "parent" two_routers = Py.Done h1 /\
    include_router 2 0 1 "parent" h1 = Py.Done h2 /\
    h2 !! 0 = Some twice /\
    length (event_handlers twice) = 3 /\
    session_after (handle twice [] (event "parent.child.leaf")) =
      ["leaf handler"].
Proof.
  split; [lia|]. split; [reflexivity|]. split; [reflexivity|].
  split; [simpl; lia|].
  destruct (include_router_twice_dispatches_as_once two_routers 0 1
              "parent" parent_router child_router 2
              ltac:(lia) eq_refl eq_refl ltac:(simpl; lia))
    as (h1 & h2 & once & twice & H1 & H2 & Honce & Htwice & Hroutes & Hsame).
  exists h1, h2, twice. split; [exact H1|]. split; [exact H2|].
  split; [exact Htwice|].
  assert (Hfirst : h1 !! 0 = Some
            {| prefix := "";
               event_handlers :=
                 [("ping", records "ping handler");
                  ("parent.child.leaf", records "leaf handler")] |}).
  { unfold include_router in H1. simpl in H1. injection H1 as <-.
    reflexivity. }
  pose proof (eq_trans (eq_sym Honce) Hfirst) as Heq. injection Heq as ->.
  split.
  - exact (eq_trans (f_equal length Hroutes) eq_refl).
  - exact (eq_trans (f_equal session_after (Hsame [] (event _))) eq_refl).
Defined.

End RoutingLaws.

(** ** Laws of the event record *)

Module BaseLaws.
Import Base BaseFacts.

Section DictLaws.
Context {Payload : Type}.

(** X11. A [DBEvent] built from a type and a payload holds exactly the
    keys "type" and "payload", and its two properties read them back; the
    properties follow the dictionary: a removed key raises [KeyError], a
    replaced value is the one read, and other keys do not matter. *)
Theorem DBEvent_properties (ty : string) (payload : Payload)
    (d : gmap string (item Payload)) (key : string) (v : item Payload) :
  dom (DBEvent ty payload) = {["type"; "payload"]} /\
  event_type (DBEvent ty payload) = inr (Str ty) /\
  event_payload (DBEvent ty payload) = inr (Data payload) /\
  event_type (delete "type" d) = inl "type" /\
  event_type (<["type" := v]> d) = inr v /\
  (key <> "type" -> event_type (<[key := v]> d) = event_type d) /\
  (key <> "type" -> event_type (delete key d) = event_type d).
Proof.
  unfold event_type, event_payload, getitem, DBEvent. split_and!.
  - rewrite !dom_insert_L. set_solver.
  - by rewrite lookup_insert_ne, lookup_insert_eq.
  - by rewrite lookup_insert_eq.
  - by rewrite lookup_delete_eq.
  - by rewrite lookup_insert_eq.
  - intros Hk. by rewrite lookup_insert_ne.
  - intros Hk. by rewrite lookup_delete_ne.
Qed.

End DictLaws.

End BaseLaws.

(** ** Further laws of the configuration *)

Module ConfigLaws.
Import Config ConfigFacts.

#[local] Open Scope Z_scope.

Lemma int_ok_bounds f v :
  int_ok f v = true ->
  (forall b, int_ge f = Some b -> b <= v) /\
  (forall b, int_le f = Some b -> v <= b).
Proof.
  unfold int_ok. intros H%andb_true_iff. destruct H as [Hge Hle]. split.
  - intros b Hb. rewrite Hb in Hge. by apply Z.leb_le.
  - intros b Hb. rewrite Hb in Hle. by apply Z.leb_le.
Qed.

Lemma float_ok_bounds f v :
  float_ok f v = true ->
  (forall b, float_ge f = Some b -> (b <= v)%Q) /\
  (forall b, float_le f = Some b -> (v <= b)%Q).
Proof.
  unfold float_ok. intros H%andb_true_iff. destruct H as [Hge Hle]. split.
  - intros b Hb. rewrite Hb in Hge. by apply Qle_bool_iff.
  - intros b Hb. rewrite Hb in Hle. by apply Qle_bool_iff.
Qed.

(** A value that passed validation is the default or within the bounds of
    its field. *)
Lemma validate_int_bounds name f v x :
  validate_int name f v = inr x ->
  x = int_default f \/
  ((forall b, int_ge f = Some b -> b <= x) /\
   (forall b, int_le f = Some b -> x <= b)).
Proof.
  unfold validate_int. destruct v as [y|].
  - destruct (int_ok f y) eqn:E; [|discriminate].
    intros [= <-]. right. by apply int_ok_bounds.
  - intros [= <-]. by left.
Qed.

Lemma validate_float_bounds name f v x :
  validate_float name f v = inr x ->
  x = float_default f \/
  ((forall b, float_ge f = Some b -> (b <= x)%Q) /\
   (forall b, float_le f = Some b -> (x <= b)%Q)).
Proof.
  unfold validate_float. destruct v as [y|].
  - destruct (float_ok f y) eqn:E; [|discriminate].
    intros [= <-]. right. by apply float_ok_bounds.
  - intros [= <-]. by left.
Qed.

(** Whatever was supplied, a configuration that was constructed is within
    the bounds of its fields. *)
Lemma constructed_within_bounds kw c :
  EventSystemConfig_new kw = Valid c -> within_bounds c.
Proof.
  unfold EventSystemConfig_new.
  destruct (validate_int "n_workers" _ _) as [e1|n] eqn:En; [done|].
  destruct (validate_int "queue_maxsize" _ _) as [e2|q] eqn:Eq;
    [done|].
  destruct (validate_int "max_retries" _ _) as [e3|r] eqn:Er; [done|].
  destruct (validate_float "poll_interval" _ _) as [e4|p] eqn:Ep;
    [done|].
  destruct (validate_float "shutdown_wait_timeout" _ _) as [e5|t] eqn:Et;
    [done|].
  intros [= <-]. unfold within_bounds. simpl.
  apply validate_int_bounds in En as [->|[Hn1 Hn2]];
  apply validate_int_bounds in Eq as [->|[Hq1 _]];
  apply validate_int_bounds in Er as [->|[Hr1 Hr2]];
  apply validate_float_bounds in Ep as [->|[Hp1 Hp2]];
  apply validate_float_bounds in Et as [->|[Ht1 _]];
  simpl;
  repeat match goal with
         | H : forall b, _ = Some b -> _ |- _ =>
             specialize (H _ eq_refl); simpl in H
         end;
  split_and!; try done; try lia.
Qed.


Section EngineLaws.
Context {Any : Type}.
Context (json_dumps : Any -> string) (json_loads : string -> Any).

(** X13. [engine_kwargs] always carries the five pool options and the two
    JSON functions; each JSON function is the configured one when one is
    configured and is true, and the default when none is configured or the
    configured one is false. It carries "connect_args" exactly when the
    configured dictionary is not empty, and then that dictionary. *)
Theorem engine_kwargs_keys (self : EngineConfig Any) :
  engine_kwargs json_dumps json_loads self !! "pool_size" =
    Some (KInt (pool_size self)) /\
  engine_kwargs json_dumps json_loads self !! "max_overflow" =
    Some (KInt (max_overflow self)) /\
  engine_kwargs json_dumps json_loads self !! "pool_timeout" =
    Some (KInt (pool_timeout self)) /\
  engine_kwargs json_dumps json_loads self !! "pool_pre_ping" =
    Some (KBool (pool_pre_ping self)) /\
  engine_kwargs json_dumps json_loads self !! "pool_recycle" =
    Some (KInt (pool_recycle self)) /\
  (forall f,
     json_serializer self = Some f -> Py.truth f = true ->
     engine_kwargs json_dumps json_loads self !! "json_serializer" =
       Some (KSerializer f)) /\
  (json_serializer self = None \/
   (exists f, json_serializer self = Some f /\ Py.truth f = false) ->
     engine_kwargs json_dumps json_loads self !! "json_serializer" =
       Some (KSerializer (Py.function json_dumps))) /\
  (forall f,
     json_deserializer self = Some f -> Py.truth f = true ->
     engine_kwargs json_dumps json_loads self !! "json_deserializer" =
       Some (KDeserializer f)) /\
  (json_deserializer self = None \/
   (exists f, json_deserializer self = Some f /\ Py.truth f = false) ->
     engine_kwargs json_dumps json_loads self !! "json_deserializer" =
       Some (KDeserializer (Py.function json_loads))) /\
  (connect_args self = ∅ ->
     engine_kwargs json_dumps json_loads self !! "connect_args" = None /\
     size (engine_kwargs json_dumps json_loads self) = 7%nat) /\
  (connect_args self <> ∅ ->
     engine_kwargs json_dumps json_loads self !! "connect_args" =
       Some (KDict (connect_args self)) /\
     size (engine_kwargs json_dumps json_loads self) = 8%nat).
Proof.
  assert (Hser : engine_kwargs json_dumps json_loads self
                   !! "json_serializer" =
                 Some (KSerializer
                   (Py.or_else (json_serializer self)
                      (Py.function json_dumps)))).
  { unfold engine_kwargs. by simplify_map_eq. }
  assert (Hde : engine_kwargs json_dumps json_loads self
                  !! "json_deserializer" =
                Some (KDeserializer
                  (Py.or_else (json_deserializer self)
                     (Py.function json_loads)))).
  { unfold engine_kwargs. by simplify_map_eq. }
  rewrite Hser, Hde. clear Hser Hde.
  split_and!.
  6:{ intros f -> Hf. simpl. by rewrite Hf. }
  6:{ intros [->|(f & -> & Hf)]; simpl; [done|by rewrite Hf]. }
  6:{ intros f -> Hf. simpl. by rewrite Hf. }
  6:{ intros [->|(f & -> & Hf)]; simpl; [done|by rewrite Hf]. }
  all: unfold engine_kwargs.
  all: destruct (decide (connect_args self = ∅)) as [He|Hne].
  all: try by simplify_map_eq.
  all: intros Hc; try done.
  all: try (split; [by simplify_map_eq|]).
  all: rewrite !map_size_insert_None by by simplify_map_eq.
  all: by rewrite map_size_empty.
Qed.

End EngineLaws.

(** X14. The two connection strings name the same credentials, host, port
    and database and differ only in the scheme; nothing in them is
    escaped, so a colon moved from the end of the user name to the front
    of the password gives the same strings; the search path is always
    present and ends with the public schema. *)
Theorem connection_strings (self : DatabaseConfig) (u p : string) :
  (exists rest,
     sqlalchemy_url self = "postgresql+asyncpg" +:+ rest /\
     asyncpg_dsn self = "postgresql" +:+ rest) /\
  (user self = u +:+ ":" +:+ p ->
   sqlalchemy_url self =
     sqlalchemy_url
       (mkDatabaseConfig (host self) (port self) (database self) u
          (p +:+ ":" +:+ password self) (application_name self)
          (schema_name self)) /\
   asyncpg_dsn self =
     asyncpg_dsn
       (mkDatabaseConfig (host self) (port self) (database self) u
          (p +:+ ":" +:+ password self) (application_name self)
          (schema_name self))) /\
  search_path self = Some (schema_name self +:+ ",public").
Proof.
  split_and!.
  - eexists. split; reflexivity.
  - intros Hu. unfold sqlalchemy_url, asyncpg_dsn. simpl. rewrite Hu.
    by rewrite !RoutingLaws.append_assoc.
  - done.
Qed.

(** A configured serializer that is false is replaced by the default. *)
Example false_serializer_is_replaced :
  engine_kwargs (fun _ : unit => "dumped") (fun _ => tt)
    Scenario.false_serializer !! "json_serializer" =
  Some (KSerializer (Py.function (fun _ => "dumped"))).
Proof. reflexivity. Qed.


End ConfigLaws.

(** ** Further laws of the system facade *)

Module SystemLaws.
Import System SystemFacts.

Section Laws.
Context {Router Exn World : Type}.
Context (perform : Call Router -> World -> World * (Exn + Value)).

#[local] Abbreviation State' := (System.State Router World).
#[local] Abbreviation EventSystem' := (System.EventSystem Router).

Implicit Types (st : State') (s : EventSystem').

(** Answer the next call of the method under evaluation both ways. *)
Ltac answer :=
  match goal with
  | |- context [perform ?c ?w] =>
      let w' := fresh "w" in
      let exn := fresh "exn" in
      let v := fresh "v" in
      let E := fresh "E" in
      destruct (perform c w) as [w' [exn|v]] eqn:E; simpl
  end.

(** The calls made, once the trace is the former one extended. *)
Ltac made :=
  unfold calls_of; simpl; rewrite <- ?app_assoc, ?drop_own_length; simpl.

(** *** Shutdown *)

(** X15. On a facade that has no listener and no pool, as before any
    [start], [stop] only closes the session factory, whether or not it was
    asked to wait, and returns or raises as that call does. *)
Theorem stop_before_start st
    (wait_for_completion : bool) (timeout : option Q) :
  listener (self st) = None ->
  worker_pool (self st) = None ->
  calls_of (stop perform wait_for_completion timeout) st =
    [session_manager_close (session_manager (self st))] /\
  self (stop perform wait_for_completion timeout st).1 = self st /\
  world (stop perform wait_for_completion timeout st).1 =
    (perform (session_manager_close (session_manager (self st)))
       (world st)).1 /\
  (stop perform wait_for_completion timeout st).2 =
    match (perform (session_manager_close (session_manager (self st)))
             (world st)).2 with
    | inl exn => inl exn
    | inr _ => inr tt
    end.
Proof.
  intros Hl Hp. destruct st as [s w tr]. simpl in *.
  unfold calls_of, stop, bind, get_self, call, ret. simpl.
  rewrite Hl. simpl. rewrite Hp.
  destruct wait_for_completion; simpl; rewrite ?Hp; simpl;
    answer; by rewrite drop_own_length.
Qed.

(** X17. [stop] has no clean-up of its own: when the listener's stop
    raises, the exception leaves [stop] at once, and neither the wait nor
    the pool's stop nor the closing of the session factory is called. *)
Theorem stop_aborts_when_listener_stop_raises st l
    (wait_for_completion : bool) (timeout : option Q) (w' : World)
    (exn : Exn) :
  listener (self st) = Some l ->
  perform (listener_stop l) (world st) = (w', inl exn) ->
  stop perform wait_for_completion timeout st =
    (mkState (self st) w' (trace st ++ [listener_stop l]), inl exn) /\
  calls_of (stop perform wait_for_completion timeout) st =
    [listener_stop l].
Proof.
  intros Hl Hraise. destruct st as [s w tr]. simpl in *.
  unfold calls_of, stop, bind, get_self, call, ret. simpl.
  rewrite Hl. simpl. rewrite Hraise. simpl.
  by rewrite drop_own_length.
Qed.

(** *** Startup *)

(** X16. Once the session for the schema has been entered, [start] leaves
    it in every run, whether the statement or the commit returns or
    raises, and before any listener connection is opened. *)
Theorem start_always_leaves_session st (session : Value) (w' : World) :
  perform (session_enter (session_manager (self st))) (world st) =
    (w', inr session) ->
  exists i,
    calls_of (start perform) st !! i =
      Some (session_exit (session_manager (self st)) session) /\
    forall j db,
      calls_of (start perform) st !! j =
        Some (create_listener_connection db) ->
      i < j.
Proof.
  intros Henter. destruct st as [s w tr]. simpl in *.
  unfold calls_of, start, async_with_session, finally, bind, get_self,
    set_self, call, ret.
  simpl. rewrite Henter. simpl.
  assert (Hfound : forall calls : list (Call Router),
    (calls !! 2 = Some (session_exit (session_manager s) session) /\
     calls !! 0 = Some (session_enter (session_manager s)) /\
     (exists c, calls !! 1 = Some (session_execute session c)) \/
     calls !! 3 = Some (session_exit (session_manager s) session) /\
     calls !! 0 = Some (session_enter (session_manager s)) /\
     (exists c, calls !! 1 = Some (session_execute session c)) /\
     calls !! 2 = Some (session_commit session)) ->
    exists i,
      calls !! i = Some (session_exit (session_manager s) session) /\
      forall j db,
        calls !! j = Some (create_listener_connection db) -> i < j).
  { intros calls [(H2 & H0 & [c H1])|(H3 & H0 & [c H1] & H2)].
    - exists 2. split; [done|]. intros [|[|[|j]]] db Hj; try lia;
        congruence.
    - exists 3. split; [done|]. intros [|[|[|[|j]]]] db Hj; try lia;
        congruence. }
  repeat answer; rewrite <- ?app_assoc, ?drop_own_length; simpl;
    apply Hfound; simpl; eauto 10.
Qed.

(** X20. [start] never undoes what it has done: no run of it stops a
    listener or a pool or closes the session factory, and whenever it has
    called a listener's start, that listener is the one the facade refers
    to afterwards, so that a later [stop] reaches it. *)
Theorem start_never_rolls_back st :
  (forall c,
     c ∈ calls_of (start perform) st ->
     (forall l, c <> listener_stop l) /\
     (forall p, c <> pool_stop p) /\
     (forall p t, c <> pool_wait_until_empty p t) /\
     (forall m, c <> session_manager_close m)) /\
  (forall l,
     listener_start l ∈ calls_of (start perform) st ->
     listener (self (start perform st).1) = Some l).
Proof.
  split.
  - destruct (start_any perform st)
      as [(calls & session & conn & Ht & Hsub & _) _].
    rewrite (calls_of_trace _ _ _ Ht).
    intros c Hc.
    assert (Hin : c ∈ start_order (self st) session conn)
      by (eapply elem_of_sublist; eauto).
    unfold start_order in Hin.
    repeat (apply elem_of_cons in Hin as [->|Hin]; [by repeat split|]).
    by apply elem_of_nil in Hin.
  - destruct st as [s w tr]. intros l.
    unfold calls_of, start, async_with_session, finally, bind, get_self,
      set_self, call, ret.
    simpl.
    repeat answer; rewrite <- ?app_assoc, ?drop_own_length; simpl;
      intros Hin;
      repeat (apply elem_of_cons in Hin as [Hin|Hin];
              [try discriminate Hin; try (by injection Hin as ->)|]);
      by apply elem_of_nil in Hin.
Qed.


(** X19. A second [start] replaces the listener the facade refers to:
    after two runs of [start] that returned, [stop] stops only the
    listener on the second connection, and the listener on the first
    connection, if the two connections differ, is never stopped. *)
Theorem restart_forgets_first_listener st (u1 u2 : unit)
    (wait_for_completion : bool) (timeout : option Q) :
  (start perform st).2 = inr u1 ->
  (start perform (start perform st).1).2 = inr u2 ->
  exists conn1 conn2,
    listener (self (start perform st).1) =
      Some (built_listener (self st) conn1) /\
    listener (self (start perform (start perform st).1).1) =
      Some (built_listener (self st) conn2) /\
    (forall l,
       listener_stop l ∈
         calls_of (stop perform wait_for_completion timeout)
           (start perform (start perform st).1).1 ->
       l = built_listener (self st) conn2) /\
    (conn1 <> conn2 ->
     listener_stop (built_listener (self st) conn1) ∉
       calls_of (stop perform wait_for_completion timeout)
         (start perform (start perform st).1).1).
Proof.
  intros H1 H2.
  destruct (start_any perform st)
    as [(calls1 & session1 & conn1 & _ & _ & Hret1 & _) _].
  destruct (Hret1 u1 H1) as [_ Hself1].
  set (st1 := (start perform st).1) in *.
  destruct (start_any perform st1)
    as [(calls2 & session2 & conn2 & _ & _ & Hret2 & _) _].
  destruct (Hret2 u2 H2) as [_ Hself2].
  set (st2 := (start perform st1).1) in *.
  assert (Hl2 : listener (self st2) = Some (built_listener (self st) conn2)).
  { rewrite Hself2, Hself1. done. }
  assert (Hp2 : worker_pool (self st2) = Some (built_pool (self st))).
  { rewrite Hself2, Hself1. done. }
  exists conn1, conn2. split; [by rewrite Hself1|]. split; [done|].
  destruct (stop_started perform st2 _ _ wait_for_completion timeout Hl2 Hp2)
    as (_ & (calls & Ht & Hpre & _) & _).
  rewrite (calls_of_trace _ _ _ Ht).
  assert (Honly : forall l, listener_stop l ∈ calls ->
                            l = built_listener (self st) conn2).
  { intros l Hin. destruct Hpre as [k Hk].
    assert (Hin' : listener_stop l ∈
              stop_order (self st2) (built_listener (self st) conn2)
                (built_pool (self st)) wait_for_completion timeout).
    { rewrite Hk. apply elem_of_app. by left. }
    unfold stop_order in Hin'.
    destruct wait_for_completion; simpl in Hin';
      repeat (apply elem_of_cons in Hin' as [Hin'|Hin'];
              [try discriminate Hin'; try (by injection Hin' as ->)|]);
      by apply elem_of_nil in Hin'. }
  split; [done|].
  intros Hne Hin. apply Honly in Hin. injection Hin as Heq. done.
Qed.

(** *** Accessors *)

(** X21. The two accessors leave the facade as it is and call at most one
    collaborator: [get_queue_size] the queue, and [get_worker_count] the
    pool when there is one, whose answer, value or exception, it hands
    back. *)
Theorem accessors_only_ask st :
  self (get_queue_size perform st).1 = self st /\
  calls_of (get_queue_size perform) st = [queue_qsize (event_queue (self st))] /\
  self (get_worker_count perform st).1 = self st /\
  (forall p,
     worker_pool (self st) = Some p ->
     calls_of (get_worker_count perform) st = [pool_get_worker_count p] /\
     (get_worker_count perform st).2 =
       (perform (pool_get_worker_count p) (world st)).2 /\
     world (get_worker_count perform st).1 =
       (perform (pool_get_worker_count p) (world st)).1) /\
  (worker_pool (self st) = None ->
     calls_of (get_worker_count perform) st = []).
Proof.
  destruct st as [s w tr].
  unfold calls_of, get_queue_size, get_worker_count, bind, get_self, call,
    ret.
  simpl. split_and!.
  - by destruct (perform _ w) as [? [?|?]].
  - destruct (perform _ w) as [? [?|?]]; simpl;
      by rewrite drop_own_length.
  - destruct (worker_pool s) as [p|]; simpl; [|done].
    by destruct (perform (pool_get_worker_count p) w) as [? [?|?]].
  - intros p Hp. rewrite Hp. simpl.
    destruct (perform (pool_get_worker_count p) w) as [w1 [e|v]]; simpl;
      by rewrite drop_own_length.
  - intros Hp. rewrite Hp. simpl. by rewrite drop_all.
Qed.

(** *** Construction *)

(** X22. A facade constructed from a validated configuration carries its
    values unchanged: between 1 and 100 workers, the same number in the
    pool [start] builds, a queue whose capacity is the configured one and
    not negative, and the configured channel on the listener. *)
Theorem init_from_valid_config (router : Router) kw c
    (database : Config.DatabaseConfig) (conn : Value) :
  Config.EventSystemConfig_new kw = Config.Valid c ->
  (1 <= n_workers (__init__ router (Config.mkSettings database c))
     <= 100)%Z /\
  pool_n_workers
    (built_pool (__init__ router (Config.mkSettings database c))) =
    Config.n_workers c /\
  pool_max_retries
    (built_pool (__init__ router (Config.mkSettings database c))) =
    Config.max_retries c /\
  maxsize (event_queue (__init__ router (Config.mkSettings database c))) =
    Config.queue_maxsize c /\
  (0 <= maxsize
          (event_queue (__init__ router (Config.mkSettings database c))))%Z /\
  listener_channel
    (built_listener (__init__ router (Config.mkSettings database c)) conn) =
    Config.channel c /\
  listener (__init__ router (Config.mkSettings database c)) = None /\
  worker_pool (__init__ router (Config.mkSettings database c)) = None.
Proof.
  intros Hvalid.
  pose proof (ConfigLaws.constructed_within_bounds kw c Hvalid) as Hb.
  unfold Config.within_bounds in Hb. destruct Hb as (Hn & Hq & _).
  simpl. split_and!; try done; lia.
Qed.

End Laws.

(** *** Evaluations *)

Import Scenario.

(** Stopping the facade that was only constructed. *)
Lemma stop_before_start_witness :
  listener (self at_rest) = None /\
  worker_pool (self at_rest) = None /\
  calls_of (stop calm true (Some 30%Q)) at_rest =
    [session_manager_close (session_manager constructed)].
Proof.
  split; [reflexivity|]. split; [reflexivity|].
  exact (proj1 (stop_before_start calm at_rest true (Some 30%Q)
                  eq_refl eq_refl)).
Defined.

(** Stopping the running facade when its listener cannot be stopped. *)
Lemma stop_aborts_when_listener_stop_raises_witness :
  listener (self running) = Some (built_listener constructed VNone) /\
  stubborn (listener_stop (built_listener constructed VNone))
    (world running) = (tt, inl "listener busy") /\
  calls_of (stop stubborn true (Some 30%Q)) running =
    [listener_stop (built_listener constructed VNone)].
Proof.
  split; [reflexivity|]. split; [reflexivity|].
  exact (proj2 (stop_aborts_when_listener_stop_raises stubborn running
                  (built_listener constructed VNone) true (Some 30%Q) tt
                  "listener busy" eq_refl eq_refl)).
Defined.

(** Starting the constructed facade in the calm environment. *)
Lemma start_always_leaves_session_witness :
  calm (session_enter (session_manager (self at_rest))) (world at_rest) =
    (tt, inr VNone) /\
  exists i,
    calls_of (start calm) at_rest !! i =
      Some (session_exit (session_manager (self at_rest)) VNone) /\
    forall j db,
      calls_of (start calm) at_rest !! j =
        Some (create_listener_connection db) ->
      i < j.
Proof.
  split; [reflexivity|].
  exact (start_always_leaves_session calm at_rest VNone tt eq_refl).
Defined.


(** Starting twice on the quiet database, then stopping. *)
Lemma restart_forgets_first_listener_witness :
  (start respond at_rest_quiet).2 = inr tt /\
  (start respond (start respond at_rest_quiet).1).2 = inr tt /\
  exists conn1 conn2,
    listener (self (start respond at_rest_quiet).1) =
      Some (built_listener (self at_rest_quiet) conn1) /\
    listener (self (start respond (start respond at_rest_quiet).1).1) =
      Some (built_listener (self at_rest_quiet) conn2) /\
    (forall l,
       listener_stop l ∈
         calls_of (stop respond true None)
           (start respond (start respond at_rest_quiet).1).1 ->
       l = built_listener (self at_rest_quiet) conn2) /\
    (conn1 <> conn2 ->
     listener_stop (built_listener (self at_rest_quiet) conn1) ∉
       calls_of (stop respond true None)
         (start respond (start respond at_rest_quiet).1).1).
Proof.
  split; [reflexivity|]. split; [reflexivity|].
  exact (restart_forgets_first_listener respond at_rest_quiet tt tt true
           None eq_refl eq_refl).
Defined.

(** The facade constructed from eight workers polling twice a second. *)
Lemma init_from_valid_config_witness :
  Config.EventSystemConfig_new eight_workers =
    Config.Valid
      (Config.mkEventSystemConfig "events" 8 1000 3 (1 # 2)%Q 30%Q true) /\
  pool_n_workers
    (built_pool
       (__init__ parent_router
          (Config.mkSettings Config.DatabaseConfig_default
             (Config.mkEventSystemConfig "events" 8 1000 3 (1 # 2)%Q 30%Q
                true)))) = 8%Z.
Proof.
  split; [reflexivity|].
  exact (proj1 (proj2
    (init_from_valid_config parent_router eight_workers
       (Config.mkEventSystemConfig "events" 8 1000 3 (1 # 2)%Q 30%Q true)
       Config.DatabaseConfig_default VNone eq_refl))).
Defined.

End SystemLaws.

